(** * serpy: the compile-then-execute serializer ([serpy/serializer.py])

    A shallow embedding of [SerializerMeta] (schema compilation) and of
    [Serializer] (execution of a compiled plan), followed by the properties
    the specification states about them.

    How the Python is rendered:
    - Python objects are dynamically typed, so there is one type [value] of
      run-time values, an exception type [exn], and a state-and-exception
      monad [M] for code that may raise or have effects.  Schema compilation
      has no effect on the world and lives in [result].
    - User code (extractors, callables, transforms) is arbitrary: it is a
      function in [M], free to read and extend the trace of the world.
    - A container the engine creates carries the address it was allocated
      at, which stands for the identity of the object.
    - A class object is its namespace and the rest of its MRO; the
      linearisation [type.__new__] computes from the bases is an input.
    - [serpy/fields.py] is not among the sources: a descriptor is a record of
      the attributes and methods [serializer.py] reads from it, and the
      value of [Field()] is a parameter of the metaclass. *)

From Stdlib Require Import String Ascii List ZArith Bool Lia.
From stdpp Require Import base tactics option list.
Import ListNotations.
Local Open Scope string_scope.
Local Open Scope list_scope.
Set Warnings "-register-all".

(** ** Exceptions *)

Inductive exn : Type :=
| KeyError (key : string)
| AttributeError (attr : string)
| TypeError (msg : string)
| RuntimeError (msg : string)
| OtherError (tag : string).

(** The two exception classes line 188 catches:
    [except (KeyError, AttributeError)]. *)
Definition is_missing (e : exn) : bool :=
  match e with
  | KeyError _ | AttributeError _ => true
  | _ => false
  end.

(** ** The world

    [trace] records the observable effects of user code (extractors, callables
    and transforms may append to it and may depend on it); [next_addr] is the
    allocation pointer: every container the engine creates is tagged with the
    address it was allocated at, so that "the same object" (Python's [is]) can
    be told apart from "an equal object". *)

Record world : Type := mkWorld { trace : list string; next_addr : nat }.

Definition result (A : Type) : Type := (exn + A)%type.

Definition M (A : Type) : Type := world -> world * result A.

Definition ret {A} (a : A) : M A := fun w => (w, inr a).

Definition raise {A} (e : exn) : M A := fun w => (w, inl e).

Definition bind {A B} (m : M A) (k : A -> M B) : M B :=
  fun w => match m w with
           | (w', inr a) => k a w'
           | (w', inl e) => (w', inl e)
           end.

Notation "x <- m ;; k" := (bind m (fun x => k))
  (at level 100, m at next level, right associativity).

(** [try: m except (KeyError, AttributeError)]: the two caught classes are
    handed to the handler as a value, every other exception propagates. *)
Definition catch_missing {A} (m : M A) : M (exn + A) :=
  fun w => match m w with
           | (w', inr a) => (w', inr (inr a))
           | (w', inl e) =>
               if is_missing e then (w', inr (inl e)) else (w', inl e)
           end.

Definition lift {A} (r : result A) : M A :=
  match r with inl e => raise e | inr a => ret a end.

(** Code that may raise but has no effect on the world (schema compilation). *)
Definition rbind {A B} (r : result A) (k : A -> result B) : result B :=
  match r with inl e => inl e | inr a => k a end.

Notation "x <~ r ;; k" := (rbind r (fun x => k))
  (at level 100, r at next level, right associativity).

Fixpoint rmapM {A B} (f : A -> result B) (l : list A) : result (list B) :=
  match l with
  | [] => inr []
  | x :: l' => y <~ f x ;; ys <~ rmapM f l' ;; inr (y :: ys)
  end.

(** Allocation of a fresh container: the world after it, and the address. *)
Definition after_alloc (w : world) : world :=
  mkWorld (trace w) (S (next_addr w)).

Definition alloc : M nat := fun w => (after_alloc w, inr (next_addr w)).

(** An observable effect of user code. *)
Definition emit (ev : string) : M unit :=
  fun w => (mkWorld (trace w ++ [ev]) (next_addr w), inr tt).

Fixpoint mapM {A B} (f : A -> M B) (l : list A) : M (list B) :=
  match l with
  | [] => ret []
  | x :: l' => y <- f x ;; ys <- mapM f l' ;; ret (y :: ys)
  end.

(** ** Values *)

Inductive value : Type :=
| VNone
| VBool (b : bool)
| VInt (n : Z)
| VStr (s : string)
| VList (addr : nat) (elems : list value)
| VDict (addr : nat) (items : list (string * value))
| VObject (attrs : list (string * value))
| VCallable (body : world -> world * result value).

(** [x is None] *)
Definition is_None (v : value) : bool :=
  match v with VNone => true | _ => false end.

(** Python truthiness, [bool(x)]. *)
Definition truthy (v : value) : bool :=
  match v with
  | VNone => false
  | VBool b => b
  | VInt n => negb (Z.eqb n 0)
  | VStr s => negb (String.eqb s EmptyString)
  | VList _ l => match l with [] => false | _ => true end
  | VDict _ d => match d with [] => false | _ => true end
  | VObject _ => true
  | VCallable _ => true
  end.

(** [x()] *)
Definition py_call (v : value) : M value :=
  match v with
  | VCallable body => body
  | _ => raise (TypeError "object is not callable")
  end.

(** ** Dictionaries

    A Python [dict] keeps its keys in insertion order (the language
    guarantees it from version 3.7 on); assigning to a key that is already
    there replaces the value and keeps the position.  The keys of a
    dictionary are distinct; the operations below keep them so. *)

Definition dict (V : Type) : Type := list (string * V).

Fixpoint dict_get {V} (d : dict V) (k : string) : option V :=
  match d with
  | [] => None
  | (k', v) :: d' => if String.eqb k' k then Some v else dict_get d' k
  end.

(** [d[k] = v] *)
Fixpoint dict_set {V} (d : dict V) (k : string) (v : V) : dict V :=
  match d with
  | [] => [(k, v)]
  | (k', v') :: d' =>
      if String.eqb k' k then (k', v) :: d' else (k', v') :: dict_set d' k v
  end.

(** [d.update(other)] *)
Definition dict_update {V} (d other : dict V) : dict V :=
  fold_left (fun acc kv => dict_set acc (fst kv) (snd kv)) other d.

(** [del d[k]] for a key that is present. *)
Fixpoint dict_del {V} (d : dict V) (k : string) : dict V :=
  match d with
  | [] => []
  | (k', v) :: d' => if String.eqb k' k then d' else (k', v) :: dict_del d' k
  end.

Definition dict_keys {V} (d : dict V) : list string := map fst d.

(** [k in d] *)
Definition dict_mem {V} (d : dict V) (k : string) : bool :=
  match dict_get d k with Some _ => true | None => false end.

(** [a or b] on optional strings: [None] and [''] are falsy. *)
Definition or_name (a : option string) (b : string) : string :=
  match a with
  | Some s => if String.eqb s EmptyString then b else s
  | None => b
  end.

(** ** Iteration and the two standard lookup strategies *)

Fixpoint chars (s : string) : list value :=
  match s with
  | EmptyString => []
  | String c r => VStr (String c EmptyString) :: chars r
  end.

(** [for o in x]: the elements a collection yields. *)
Definition py_iter (v : value) : M (list value) :=
  match v with
  | VList _ l => ret l
  | VDict _ d => ret (map (fun kv => VStr (fst kv)) d)
  | VStr s => ret (chars s)
  | _ => raise (TypeError "object is not iterable")
  end.

(** [getattr(obj, name)] *)
Definition getattr (obj : value) (name : string) : M value :=
  match obj with
  | VObject attrs =>
      match dict_get attrs name with
      | Some v => ret v
      | None => raise (AttributeError name)
      end
  | _ => raise (AttributeError name)
  end.

Fixpoint split_dots (s : string) : list string :=
  match s with
  | EmptyString => [EmptyString]
  | String c r =>
      if Ascii.eqb c "."%char then EmptyString :: split_dots r
      else match split_dots r with
           | h :: t => String c h :: t
           | [] => [String c EmptyString]
           end
  end.

Fixpoint getattr_path (obj : value) (path : list string) : M value :=
  match path with
  | [] => ret obj
  | a :: rest => o <- getattr obj a ;; getattr_path o rest
  end.

(** [operator.attrgetter(name)]: dotted names walk nested attributes. *)
Definition attrgetter (name : string) (obj : value) : M value :=
  getattr_path obj (split_dots name).

(** [operator.itemgetter(key)] *)
Definition itemgetter (key : string) (obj : value) : M value :=
  match obj with
  | VDict _ d =>
      match dict_get d key with
      | Some v => ret v
      | None => raise (KeyError key)
      end
  | _ => raise (TypeError "object is not subscriptable")
  end.

(** ** Serializer instances and compiled fields *)

(** The instance attributes [__init__] sets (lines 176-178). *)
Record Serializer : Type := mkSerializer {
  instance : value;
  many : bool;
  _data : value
}.

(** An extractor is a Python callable; it is called with one argument
    ([getter(instance)], line 187) or with two ([getter(self, instance)],
    line 184), and calling it with the wrong number raises [TypeError]. *)
Inductive getter : Type :=
| Getter1 (g : value -> M value)
| Getter2 (g : Serializer -> value -> M value).

Definition call_getter1 (g : getter) (inst : value) : M value :=
  match g with
  | Getter1 f => f inst
  | Getter2 _ => raise (TypeError "missing 1 required positional argument")
  end.

Definition call_getter2 (g : getter) (self : Serializer) (inst : value)
  : M value :=
  match g with
  | Getter2 f => f self inst
  | Getter1 _ => raise (TypeError "takes 1 positional argument but 2 were given")
  end.

(** The six-tuple [_compile_field_to_tuple] returns (lines 23-24). *)
Record compiled_field : Type := mkCompiled {
  cf_name : string;
  cf_getter : getter;
  cf_to_value : option (value -> M value);
  cf_call : bool;
  cf_required : bool;
  cf_pass_self : bool
}.

(** ** Execution: [Serializer._serialize], [to_value], [data] *)

(** One iteration of the loop of [_serialize] (lines 183-198); [v] is the
    mapping under construction, and the iteration returns it as it is when
    the source reaches [continue]. *)
Definition serialize_field (self : Serializer) (inst : value)
    (f : compiled_field) (v : dict value) : M (dict value) :=
  if cf_pass_self f then
    result <- call_getter2 (cf_getter f) self inst ;;
    ret (dict_set v (cf_name f) result)
  else
    r <- catch_missing (call_getter1 (cf_getter f) inst) ;;
    match r with
    | inl e => if cf_required f then raise e else ret v
    | inr result =>
        result <- (if cf_required f || negb (is_None result) then
                     result <- (if cf_call f then py_call result
                                else ret result) ;;
                     match cf_to_value f with
                     | Some to_value => to_value result
                     | None => ret result
                     end
                   else ret result) ;;
        ret (dict_set v (cf_name f) result)
    end.

(** The [for] loop of [_serialize] over the compiled fields. *)
Fixpoint serialize_loop (self : Serializer) (inst : value)
    (fields : list compiled_field) (v : dict value) : M (dict value) :=
  match fields with
  | [] => ret v
  | f :: rest =>
      v' <- serialize_field self inst f v ;;
      serialize_loop self inst rest v'
  end.

(** [Serializer._serialize] (lines 180-200): [v = {}] creates the output
    mapping, the loop fills it, and the mapping is returned. *)
Definition _serialize (self : Serializer) (inst : value)
    (fields : list compiled_field) : M value :=
  a <- alloc ;;
  v <- serialize_loop self inst fields [] ;;
  ret (VDict a v).

(** [Serializer.to_value] (lines 202-207); [fields] is the class attribute
    [_compiled_fields].  The comprehension of line 206 first asks [instance]
    for its elements, then builds the list, one [serialize] call per element
    from first to last. *)
Definition to_value (fields : list compiled_field) (self : Serializer)
    (inst : value) : M value :=
  if many self then
    os <- py_iter inst ;;
    a <- alloc ;;
    vs <- mapM (fun o => _serialize self o fields) os ;;
    ret (VList a vs)
  else _serialize self inst fields.

(** [Serializer.__init__] (lines 169-178). *)
Definition Serializer_init (inst : value) (many_ : bool) (data_ : value)
  : result Serializer :=
  if negb (is_None data_) then
    inl (RuntimeError "serpy serializers do not support input validation")
  else inr (mkSerializer inst many_ VNone).

(** The property [Serializer.data] (lines 209-218).  It assigns to
    [self._data], so the serializer instance is part of the state. *)
Definition data (fields : list compiled_field) (self : Serializer)
    (w : world) : Serializer * world * result value :=
  if is_None (_data self) then
    match to_value fields self (instance self) w with
    | (w', inr v) => (mkSerializer (instance self) (many self) v, w', inr v)
    | (w', inl e) => (self, w', inl e)
    end
  else (self, w, inr (_data self)).

(** ** Field descriptors *)

(** Modelled from the spec: the class [Field] of [serpy/fields.py], which is
    not part of the sources at hand.  The record has the attributes and
    methods [serializer.py] reads from a descriptor: [attr] (the spec's
    [source_name]), [label] ([output_label]), [call] ([is_callable]),
    [required], [getter_takes_serializer], the method [as_getter] (the
    custom extractor, [None] when there is none), [_is_to_value_overridden]
    and [to_value].  [as_getter] receives the declared name and, of the
    schema type, its method lookup. *)
Record Field : Type := mkField {
  attr : option string;
  label : option string;
  call : bool;
  required : bool;
  getter_takes_serializer : bool;
  as_getter : string -> (string -> option getter) -> option getter;
  _is_to_value_overridden : bool;
  field_to_value : value -> M value
}.

(** ** External models and the [Meta] declaration *)

(** A field of a Django model or a column of an SQLAlchemy table: an object
    with a [name] attribute. *)
Record model_field : Type := mkModelField { name : string }.

(** What a list of fields may hold: objects with a [name], or plain
    strings, which have no attribute [name]. *)
Inductive pyitem : Type :=
| ItemField (f : model_field)
| ItemStr (s : string).

(** [item.name] *)
Definition item_name (i : pyitem) : result string :=
  match i with
  | ItemField f => inr (name f)
  | ItemStr _ => inl (AttributeError "name")
  end.

(** The external model: [model._meta.fields] for a Django model,
    [model.__table__.columns] for an SQLAlchemy model. *)
Record Model : Type := mkModel {
  _meta : option (list model_field);
  __table__ : option (list model_field)
}.

(** [Meta.fields]: absent, a string (['__all__']) or a list. *)
Inductive meta_fields : Type :=
| FieldsNone
| FieldsStr (s : string)
| FieldsList (l : list pyitem).

Record Meta : Type := mkMeta {
  model : option Model;
  fields : meta_fields;
  exclude : option (list string)
}.

Definition fields_truthy (f : meta_fields) : bool :=
  match f with
  | FieldsNone => false
  | FieldsStr s => negb (String.eqb s EmptyString)
  | FieldsList l => match l with [] => false | _ => true end
  end.

Definition exclude_truthy (e : option (list string)) : bool :=
  match e with
  | Some (_ :: _) => true
  | _ => false
  end.

(** [x in exclude] *)
Definition in_exclude (x : string) (e : option (list string)) : bool :=
  match e with
  | Some l => existsb (String.eqb x) l
  | None => false
  end.

Fixpoint str_items (s : string) : list pyitem :=
  match s with
  | EmptyString => []
  | String c r => ItemStr (String c EmptyString) :: str_items r
  end.

(** [for field in fields] *)
Definition iter_fields (f : meta_fields) : result (list pyitem) :=
  match f with
  | FieldsNone => inl (TypeError "'NoneType' object is not iterable")
  | FieldsStr s => inr (str_items s)
  | FieldsList l => inr l
  end.

(** ** Classes *)

Inductive class_attr : Type :=
| AField (f : Field)
| AMeta (m : Meta)
| AFieldMap (fm : dict Field)
| ACompiledFields (cf : list compiled_field)
| AGetterFactory (mk : string -> getter)
| AMethod (g : getter)
| AValue (v : value).

(** A class object: its own namespace ([__dict__]) and the rest of its
    method resolution order ([__mro__[1:]]).  [is_SerializerBase] marks the
    class object [SerializerBase] itself. *)
Inductive pyclass : Type :=
| PyClass (cls_name : string) (is_SerializerBase : bool)
          (cls_dict : dict class_attr) (mro_tail : list pyclass).

Definition cls_dict (c : pyclass) : dict class_attr :=
  match c with PyClass _ _ d _ => d end.

Definition is_SerializerBase (c : pyclass) : bool :=
  match c with PyClass _ b _ _ => b end.

(** [cls.__mro__] *)
Definition __mro__ (c : pyclass) : list pyclass :=
  match c with PyClass _ _ _ t => c :: t end.

(** [issubclass(cls, SerializerBase)] *)
Definition issubclass_SerializerBase (c : pyclass) : bool :=
  existsb is_SerializerBase (__mro__ c).

Fixpoint lookup_mro (mro : list pyclass) (a : string) : option class_attr :=
  match mro with
  | [] => None
  | c :: rest =>
      match dict_get (cls_dict c) a with
      | Some x => Some x
      | None => lookup_mro rest a
      end
  end.

(** Attribute lookup on a class: the first namespace along the MRO that has
    the name. *)
Definition class_getattr (c : pyclass) (a : string) : option class_attr :=
  lookup_mro (__mro__ c) a.

(** [cls._field_map] *)
Definition get_field_map (c : pyclass) : result (dict Field) :=
  match class_getattr c "_field_map" with
  | Some (AFieldMap fm) => inr fm
  | Some _ => inl (TypeError "_field_map is not a mapping")
  | None => inl (AttributeError "_field_map")
  end.

(** [getattr(serializer_cls, m)] as a descriptor's [as_getter] sees it. *)
Definition class_method (c : pyclass) (m : string) : option getter :=
  match class_getattr c m with
  | Some (AMethod g) => Some g
  | _ => None
  end.

(** [serializer_cls.default_getter(name)] *)
Definition default_getter (c : pyclass) (n : string) : result getter :=
  match class_getattr c "default_getter" with
  | Some (AGetterFactory mk) => inr (mk n)
  | Some _ => inl (TypeError "default_getter is not callable")
  | None => inl (AttributeError "default_getter")
  end.

(** ** Schema compilation: [_compile_field_to_tuple] and [SerializerMeta] *)

(** Lines 10-24. *)
Definition _compile_field_to_tuple (field : Field) (name : string)
    (serializer_cls : pyclass) : result compiled_field :=
  getter <~ match as_getter field name (class_method serializer_cls) with
            | Some g => inr g
            | None => default_getter serializer_cls (or_name (attr field) name)
            end ;;
  let to_value :=
    if _is_to_value_overridden field then Some (field_to_value field)
    else None in
  let name := or_name (label field) name in
  inr (mkCompiled name getter to_value (call field) (required field)
                  (getter_takes_serializer field)).

(** Lines 29-37: the walk over [serializer_cls.__mro__[::-1]]. *)
Fixpoint merge_bases (classes : list pyclass) (field_map : dict Field)
  : result (dict Field) :=
  match classes with
  | [] => inr field_map
  | cls :: rest =>
      if issubclass_SerializerBase cls then
        fm <~ get_field_map cls ;;
        merge_bases rest (dict_update field_map fm)
      else merge_bases rest field_map
  end.

Definition _get_fields (direct_fields : dict Field) (serializer_cls : pyclass)
  : result (dict Field) :=
  field_map <~ merge_bases (rev (__mro__ serializer_cls)) [] ;;
  inr (dict_update field_map direct_fields).

(** Lines 39-44. *)
Definition _compile_fields (field_map : dict Field) (serializer_cls : pyclass)
  : result (list compiled_field) :=
  rmapM (fun kv => _compile_field_to_tuple (snd kv) (fst kv) serializer_cls)
        field_map.

(** Lines 46-58.  The result is [model_fields], the filtered [model_fields],
    or [fields] as it was given. *)
Definition _get_implicit_fields (model_fields : list model_field)
    (fields : meta_fields) (exclude : option (list string)) : meta_fields :=
  match fields with
  | FieldsStr "__all__" => FieldsList (map ItemField model_fields)
  | _ =>
      if negb (fields_truthy fields) && exclude_truthy exclude then
        FieldsList (map ItemField
          (filter (fun field => negb (in_exclude (name field) exclude))
                  model_fields))
      else fields
  end.

(** [d.keys()]: a view of the dictionary [d], not a copy of its keys; what
    the view holds is read from [d] as it is at the time of the test. *)
Definition keys_view : Type := dict Field -> list string.

Definition keys : keys_view := dict_keys.

(** [x in view] *)
Definition in_view (x : string) (view : keys_view) (d : dict Field) : bool :=
  existsb (String.eqb x) (view d).

(** Lines 60-65.  [explicit_fields] is the view [direct_fields.keys()] of the
    mapping the loop assigns to; [new_field] is the value of [Field()]. *)
Fixpoint update_direct_loop (new_field : Field) (items : list pyitem)
    (explicit_fields : keys_view) (direct_fields : dict Field)
  : result (dict Field) :=
  match items with
  | [] => inr direct_fields
  | field :: rest =>
      n <~ item_name field ;;
      if negb (in_view n explicit_fields direct_fields) then
        update_direct_loop new_field rest explicit_fields
          (dict_set direct_fields n new_field)
      else update_direct_loop new_field rest explicit_fields direct_fields
  end.

Definition _update_direct_fields (new_field : Field)
    (direct_fields : dict Field) (explicit_fields : keys_view)
    (implicit_fields : meta_fields) : result (dict Field) :=
  items <~ iter_fields implicit_fields ;;
  update_direct_loop new_field items explicit_fields direct_fields.

(** Lines 69-76: the descriptors among the class attributes, and the
    attributes left once they are removed. *)
Definition collect_direct_fields (attrs : dict class_attr) : dict Field :=
  fold_left (fun d kv => match snd kv with
                         | AField f => dict_set d (fst kv) f
                         | _ => d
                         end) attrs [].

Definition remove_fields (attrs : dict class_attr) (direct : dict Field)
  : dict class_attr :=
  fold_left (fun a k => dict_del a k) (dict_keys direct) attrs.

(** [if meta:] and the three [getattr(meta, ..., None)] of lines 82-86. *)
Definition attr_truthy (a : class_attr) : bool :=
  match a with
  | AValue v => truthy v
  | _ => true
  end.

Definition meta_of (a : class_attr) : Meta :=
  match a with
  | AMeta m => m
  | _ => mkMeta None FieldsNone None
  end.

(** Lines 83-132: the [Meta] handling. *)
Definition expand_meta (new_field : Field) (meta : Meta)
    (direct_fields : dict Field) : result (dict Field) :=
  match model meta with
  | None =>
      inl (RuntimeError
             "If you specifiy a Meta class, you need to specify a model")
  | Some mdl =>
      if negb (fields_truthy (fields meta))
         && negb (exclude_truthy (exclude meta)) then
        inl (RuntimeError
               "You need to specifiy either `fields` or `exclude` in Meta")
      else if fields_truthy (fields meta) && exclude_truthy (exclude meta) then
        inl (RuntimeError "`fields` and `exclude` prohibit each other.")
      else
        match _meta mdl with
        | Some model_fields =>
            let implicit_fields :=
              _get_implicit_fields model_fields (fields meta) (exclude meta) in
            let explicit_fields := keys in
            _update_direct_fields new_field direct_fields explicit_fields
                                  implicit_fields
        | None =>
            match __table__ mdl with
            | Some columns =>
                let implicit_fields :=
                  _get_implicit_fields columns (fields meta) (exclude meta) in
                let explicit_fields := keys in
                _update_direct_fields new_field direct_fields explicit_fields
                                      implicit_fields
            | None =>
                inl (RuntimeError
                       "Cannot deduce your fields from your model declaration")
            end
        end
  end.

(** Line 78: the class object [type.__new__] returns.  [mro_tail] is the
    linearisation it computes from [bases]. *)
Definition type_new (cls_name : string) (mro_tail : list pyclass)
    (attrs : dict class_attr) : pyclass :=
  PyClass cls_name false
    (remove_fields attrs (collect_direct_fields attrs)) mro_tail.

(** Lines 82-132: the direct fields once [Meta] has been handled. *)
Definition declared_fields (new_field : Field) (cls_name : string)
    (mro_tail : list pyclass) (attrs : dict class_attr) : result (dict Field) :=
  let direct_fields := collect_direct_fields attrs in
  let real_cls := type_new cls_name mro_tail attrs in
  match class_getattr real_cls "Meta" with
  | Some meta =>
      if attr_truthy meta then
        expand_meta new_field (meta_of meta) direct_fields
      else inr direct_fields
  | None => inr direct_fields
  end.

(** [SerializerMeta.__new__] (lines 67-139); [new_field] is the value of
    [Field()]. *)
Definition SerializerMeta_new (new_field : Field) (cls_name : string)
    (mro_tail : list pyclass) (attrs : dict class_attr) : result pyclass :=
  let real_cls := type_new cls_name mro_tail attrs in
  direct_fields <~ declared_fields new_field cls_name mro_tail attrs ;;
  field_map <~ _get_fields direct_fields real_cls ;;
  compiled_fields <~ _compile_fields field_map real_cls ;;
  inr (PyClass cls_name false
         (dict_set (dict_set (cls_dict real_cls)
                             "_field_map" (AFieldMap field_map))
                   "_compiled_fields" (ACompiledFields compiled_fields))
         mro_tail).

(** [cls._field_map] and [cls._compiled_fields] of a compiled schema type. *)
Definition _field_map (c : pyclass) : dict Field :=
  match class_getattr c "_field_map" with
  | Some (AFieldMap fm) => fm
  | _ => []
  end.

Definition _compiled_fields (c : pyclass) : list compiled_field :=
  match class_getattr c "_compiled_fields" with
  | Some (ACompiledFields cf) => cf
  | _ => []
  end.

(** ** Vocabulary of the statements *)

(** The extraction step of a compiled field: [getter(self, instance)] when the
    extractor takes the serializer, [getter(instance)] otherwise. *)
Definition extract (self : Serializer) (inst : value) (f : compiled_field)
  : M value :=
  if cf_pass_self f then call_getter2 (cf_getter f) self inst
  else call_getter1 (cf_getter f) inst.

(** The invoked and transformed value of lines 194-197: [result()] when the
    field is callable, then [to_value(result)] when a transform is set. *)
Definition invoked_transformed (f : compiled_field) (x : value) : M value :=
  r <- (if cf_call f then py_call x else ret x) ;;
  match cf_to_value f with
  | Some t => t r
  | None => ret r
  end.

(** [serialize_each self fields os w ds w']: serialising the elements of [os]
    one after the other, from world [w], yields the outputs [ds], in the same
    order, and leaves world [w']. *)
Inductive serialize_each (self : Serializer) (cfs : list compiled_field)
  : list value -> world -> list value -> world -> Prop :=
| each_nil w : serialize_each self cfs [] w [] w
| each_cons o os w w1 d ds w2 :
    _serialize self o cfs w = (w1, inr d) ->
    serialize_each self cfs os w1 ds w2 ->
    serialize_each self cfs (o :: os) w (d :: ds) w2.

(** [n] successive reads of the property [data] of one serializer instance. *)
Fixpoint data_repeat (n : nat) (cfs : list compiled_field)
    (self : Serializer) (w : world)
  : Serializer * world * list (result value) :=
  match n with
  | 0 => (self, w, [])
  | S n' =>
      let '(self1, w1, r) := data cfs self w in
      let '(self2, w2, rs) := data_repeat n' cfs self1 w1 in
      (self2, w2, r :: rs)
  end.


(** The schema ancestors along an MRO, nearest first, and their field maps. *)
Definition schema_ancestors (mro : list pyclass) : list pyclass :=
  List.filter issubclass_SerializerBase mro.

Definition ancestor_maps (mro : list pyclass) : list (dict Field) :=
  map _field_map (schema_ancestors mro).

(** The canonical field list the two adapters of lines 100 and 121 read from
    a model, the Django one first. *)
Definition canonical_fields (m : Model) : option (list model_field) :=
  match _meta m with
  | Some l => Some l
  | None => __table__ m
  end.

(** ** The classes of the module

    [object] and [Field] carry nothing the metaclass reads; [SerializerBase]
    has the empty [_field_map] of line 7; [Serializer] and [DictSerializer]
    are what the metaclass makes of lines 142-167 and 221-238. *)

Definition object_cls : pyclass := PyClass "object" false [] [].

Definition Field_cls : pyclass := PyClass "Field" false [] [object_cls].

Definition SerializerBase_cls : pyclass :=
  PyClass "SerializerBase" true [("_field_map", AFieldMap [])]
          [Field_cls; object_cls].

Definition Serializer_attrs : dict class_attr :=
  [("default_getter", AGetterFactory (fun n => Getter1 (attrgetter n)))].

Definition Serializer_cls : pyclass :=
  PyClass "Serializer" false
    (Serializer_attrs ++
     [("_field_map", AFieldMap []); ("_compiled_fields", ACompiledFields [])])
    [SerializerBase_cls; Field_cls; object_cls].

Definition DictSerializer_attrs : dict class_attr :=
  [("default_getter", AGetterFactory (fun n => Getter1 (itemgetter n)))].

Definition DictSerializer_cls : pyclass :=
  PyClass "DictSerializer" false
    (DictSerializer_attrs ++
     [("_field_map", AFieldMap []); ("_compiled_fields", ACompiledFields [])])
    (__mro__ Serializer_cls).

(** A class body that holds a [Meta] declaration and nothing else. *)
Definition Meta_only (m : Meta) : dict class_attr := [("Meta", AMeta m)].

(** ** Example schemas and sources *)

(** Modelled from the spec: the descriptor a plain [Field(required=...)] of
    [serpy/fields.py] (absent) stands for: no custom extractor, no source
    name, no label, not callable, the identity transform not overridden. *)
Definition plain_Field (req : bool) : Field :=
  mkField None None false req false (fun _ _ => None) false ret.

Definition w_init : world := mkWorld [] 0.

(** A user with a name and an age of zero, and no attribute [nick] or
    [email]. *)
Definition ex_user : value :=
  VObject [("name", VStr "ann"); ("age", VInt 0)].

Definition ex_bob : value :=
  VObject [("name", VStr "bob"); ("age", VInt 7)].

Definition ex_cy : value :=
  VObject [("name", VStr "cy"); ("age", VInt 9); ("nick", VNone)].

Definition ex_self : Serializer := mkSerializer ex_user false VNone.

Definition cf_plain (n : string) (req : bool) : compiled_field :=
  mkCompiled n (Getter1 (attrgetter n)) None false req false.

(** [class UserSerializer(Serializer)] with three plain fields, [nick]
    optional. *)
Definition ex_User_attrs : dict class_attr :=
  [("name", AField (plain_Field true));
   ("nick", AField (plain_Field false));
   ("age", AField (plain_Field true))].

Definition ex_User_plan : list compiled_field :=
  [cf_plain "name" true; cf_plain "nick" false; cf_plain "age" true].

(** An optional field with the [call] flag and a transform that records that
    it ran. *)
Definition cf_nick_called : compiled_field :=
  mkCompiled "nick" (Getter1 (attrgetter "nick"))
    (Some (fun x => _ <- emit "to_value nick" ;; ret (VStr "transformed")))
    true false false.

(** Fields whose extractor takes the serializer: one reports the [many] flag
    of the serializer, the other fails with [KeyError] although it is
    optional. *)
Definition cf_is_many : compiled_field :=
  mkCompiled "is_many" (Getter2 (fun self _ => ret (VBool (many self))))
    (Some (fun _ => ret (VStr "transformed"))) true true true.

Definition cf_method_fails : compiled_field :=
  mkCompiled "broken" (Getter2 (fun _ _ => raise (KeyError "k")))
    None false false true.

(** A required field whose extractor leaves a mark each time it runs. *)
Definition cf_counted : compiled_field :=
  mkCompiled "email"
    (Getter1 (fun o => _ <- emit "extract email" ;; getattr o "email"))
    None false true false.

(** A field relabelled to the output name of another one. *)
Definition cf_name_as_nick : compiled_field :=
  mkCompiled "nick" (Getter1 (attrgetter "name")) None false true false.

(** [class Base(Serializer)] declares [a] and [b]; [class Child(Base)]
    declares [b] again, as an optional field, and [c]. *)
Definition ex_Base_attrs : dict class_attr :=
  [("a", AField (plain_Field true)); ("b", AField (plain_Field true))].

Definition ex_Base_cls : pyclass :=
  match SerializerMeta_new (plain_Field true) "Base" (__mro__ Serializer_cls)
          ex_Base_attrs with
  | inr c => c
  | inl _ => object_cls
  end.

Definition ex_Child_attrs : dict class_attr :=
  [("b", AField (plain_Field false)); ("c", AField (plain_Field true))].

(** A Django model with the fields [id], [name], [age]. *)
Definition ex_model : Model :=
  mkModel (Some [mkModelField "id"; mkModelField "name"; mkModelField "age"])
          None.

Definition ex_Child_cls : pyclass :=
  match SerializerMeta_new (plain_Field true) "Child" (__mro__ ex_Base_cls)
          ex_Child_attrs with
  | inr c => c
  | inl _ => object_cls
  end.

(** A source whose three attributes are all falsy. *)
Definition ex_falsy : value :=
  VObject [("n", VInt 0); ("b", VBool false); ("s", VStr EmptyString)].

(** A serializer over a collection of three users, in batch mode. *)
Definition ex_self_many : Serializer :=
  mkSerializer (VList 100 [ex_user; ex_bob; ex_cy]) true VNone.

(** A diamond: [Top] declares a required [x]; [Left(Top)] declares nothing;
    [Right(Top)] declares [x] again, optional; [Bottom(Left, Right)] declares
    nothing.  The MRO of [Bottom] is [Bottom, Left, Right, Top, ...]. *)
Definition built (r : result pyclass) : pyclass :=
  match r with
  | inr c => c
  | inl _ => object_cls
  end.

Definition ex_Top_cls : pyclass :=
  built (SerializerMeta_new (plain_Field true) "Top" (__mro__ Serializer_cls)
           [("x", AField (plain_Field true))]).

Definition ex_Left_cls : pyclass :=
  built (SerializerMeta_new (plain_Field true) "Left" (__mro__ ex_Top_cls) []).

Definition ex_Right_cls : pyclass :=
  built (SerializerMeta_new (plain_Field true) "Right" (__mro__ ex_Top_cls)
           [("x", AField (plain_Field false))]).

Definition ex_Bottom_cls : pyclass :=
  built (SerializerMeta_new (plain_Field true) "Bottom"
           (ex_Left_cls :: ex_Right_cls :: __mro__ ex_Top_cls) []).

(** The tuple a [DictSerializer] compiles for a plain field named [k]:
    key lookup, no transform, not callable. *)
Definition cf_item (k : string) (req : bool) : compiled_field :=
  mkCompiled k (Getter1 (itemgetter k)) None false req false.

(** A mapping as source, for classes deriving from [DictSerializer]. *)
Definition ex_dict : value :=
  VDict 50 [("name", VStr "ann"); ("age", VInt 0)].

(** A class body with two descriptors and an attribute that is none. *)
Definition ex_mixed_attrs : dict class_attr :=
  [("name", AField (plain_Field true));
   ("helper", AValue (VInt 1));
   ("age", AField (plain_Field false))].

Definition ex_Mixed_cls : pyclass :=
  built (SerializerMeta_new (plain_Field true) "Mixed"
           (__mro__ Serializer_cls) ex_mixed_attrs).

(** A class body that declares [name] as optional and binds a model. *)
Definition ex_model_attrs (m : Meta) : dict class_attr :=
  [("name", AField (plain_Field false)); ("Meta", AMeta m)].

(** An optional field whose extractor raises [TypeError], and an optional
    field whose transform raises [KeyError]. *)
Definition cf_bad_extractor : compiled_field :=
  mkCompiled "bad" (Getter1 (fun _ => raise (TypeError "bad")))
    None false false false.

Definition cf_bad_transform : compiled_field :=
  mkCompiled "name" (Getter1 (attrgetter "name"))
    (Some (fun _ => raise (KeyError "inner"))) false false false.

(** A batch whose second element has no [name]. *)
Definition ex_self_broken : Serializer :=
  mkSerializer (VList 100 [ex_user; VObject []; ex_bob]) true VNone.

(** The names of a sequence of mappings in the order in which they are
    first met: each mapping adds, after the names met so far, its own names
    that were not met yet, in its own order. *)
Definition first_met (maps : list (dict Field)) : list string :=
  fold_left
    (fun ks m =>
       ks ++ List.filter (fun k => negb (existsb (String.eqb k) ks))
                         (dict_keys m))
    maps [].

(** Modelled from the spec: the descriptor [Field(label=l, required=req)] of
    [serpy/fields.py] (absent): a plain field with the output label [l]. *)
Definition labelled_Field (l : string) (req : bool) : Field :=
  mkField None (Some l) false req false (fun _ _ => None) false ret.

(** The attribute [b] stored under the output name [n]. *)
Definition cf_b_as_n : compiled_field :=
  mkCompiled "n" (Getter1 (attrgetter "b")) None false true false.

(** Class bodies in which two fields have one output name:
    [name = Field(label='nick'); nick = Field(required=False)], then
    [n = Field(); b = Field(label='n')], then
    [nick = Field(required=False); name = Field(label='nick')]. *)
Definition ex_relabel_first_attrs : dict class_attr :=
  [("name", AField (labelled_Field "nick" true));
   ("nick", AField (plain_Field false))].

Definition ex_relabel_falsy_attrs : dict class_attr :=
  [("n", AField (plain_Field true));
   ("b", AField (labelled_Field "n" true))].

Definition ex_relabel_last_attrs : dict class_attr :=
  [("nick", AField (plain_Field false));
   ("name", AField (labelled_Field "nick" true))].



(** The keys of a concrete dictionary are distinct. *)
Ltac distinct_keys :=
  vm_compute;
  repeat first
    [ apply NoDup_nil_2
    | apply NoDup_cons_2;
      [ let H := fresh in
        intros H;
        repeat (apply elem_of_cons in H as [H|H]; [discriminate|]);
        inversion H
      | ] ].

(** * Properties *)

(** ** Dictionaries *)

Lemma dict_get_set_eq {V} (d : dict V) k v :
  dict_get (dict_set d k v) k = Some v.
Proof.
  induction d as [|[k' v'] d IH]; simpl.
  - now rewrite String.eqb_refl.
  - destruct (String.eqb k' k) eqn:E; simpl; rewrite E; auto.
Qed.

Lemma dict_get_set_ne {V} (d : dict V) k k' v :
  k <> k' -> dict_get (dict_set d k v) k' = dict_get d k'.
Proof.
  intros Hne. induction d as [|[k0 v0] d IH]; simpl.
  - destruct (String.eqb k k') eqn:E; auto.
    apply String.eqb_eq in E. contradiction.
  - destruct (String.eqb k0 k) eqn:E; simpl.
    + apply String.eqb_eq in E. subst k0.
      destruct (String.eqb k k') eqn:E'; auto.
      apply String.eqb_eq in E'. contradiction.
    + now rewrite IH.
Qed.

Lemma dict_get_set {V} (d : dict V) k k' v :
  dict_get (dict_set d k v) k' =
  if String.eqb k k' then Some v else dict_get d k'.
Proof.
  destruct (String.eqb k k') eqn:E.
  - apply String.eqb_eq in E. subst. apply dict_get_set_eq.
  - apply String.eqb_neq in E. now apply dict_get_set_ne.
Qed.

(** ** The monad *)

Lemma bind_ok {A B} (m : M A) (k : A -> M B) w w' a :
  m w = (w', inr a) -> bind m k w = k a w'.
Proof. intros H. unfold bind. now rewrite H. Qed.

Lemma bind_raise {A B} (m : M A) (k : A -> M B) w w' e :
  m w = (w', inl e) -> bind m k w = (w', inl e).
Proof. intros H. unfold bind. now rewrite H. Qed.

Lemma bind_inv_ok {A B} (m : M A) (k : A -> M B) w w' b :
  bind m k w = (w', inr b) ->
  exists w1 a, m w = (w1, inr a) /\ k a w1 = (w', inr b).
Proof.
  unfold bind. destruct (m w) as [w1 [e|a]]; intros H.
  - discriminate.
  - eauto.
Qed.

(** ** One field *)

Section OneField.
Variables (self : Serializer) (inst : value) (f : compiled_field).
Variable v : dict value.

(** Lines 183-184 and 198. *)
Lemma serialize_field_pass_self w :
  cf_pass_self f = true ->
  serialize_field self inst f v w =
  (x <- call_getter2 (cf_getter f) self inst ;;
   ret (dict_set v (cf_name f) x)) w.
Proof. intros H. unfold serialize_field. now rewrite H. Qed.

(** Lines 188-190: a required field re-raises. *)
Lemma serialize_field_missing_required w w' e :
  cf_pass_self f = false ->
  call_getter1 (cf_getter f) inst w = (w', inl e) ->
  is_missing e = true ->
  cf_required f = true ->
  serialize_field self inst f v w = (w', inl e).
Proof.
  intros Hp Hg He Hr. unfold serialize_field, bind, catch_missing.
  rewrite Hp, Hg, He, Hr. reflexivity.
Qed.

(** Lines 188-192: an optional field reaches [continue]. *)
Lemma serialize_field_missing_optional w w' e :
  cf_pass_self f = false ->
  call_getter1 (cf_getter f) inst w = (w', inl e) ->
  is_missing e = true ->
  cf_required f = false ->
  serialize_field self inst f v w = (w', inr v).
Proof.
  intros Hp Hg He Hr. unfold serialize_field, bind, catch_missing.
  rewrite Hp, Hg, He, Hr. reflexivity.
Qed.

(** Any other exception of the extractor is not caught. *)
Lemma serialize_field_other_exception w w' e :
  cf_pass_self f = false ->
  call_getter1 (cf_getter f) inst w = (w', inl e) ->
  is_missing e = false ->
  serialize_field self inst f v w = (w', inl e).
Proof.
  intros Hp Hg He. unfold serialize_field, bind, catch_missing.
  rewrite Hp, Hg, He. reflexivity.
Qed.

(** Lines 193-198 for a value that is invoked and transformed. *)
Lemma serialize_field_present w w' x :
  cf_pass_self f = false ->
  call_getter1 (cf_getter f) inst w = (w', inr x) ->
  cf_required f || negb (is_None x) = true ->
  serialize_field self inst f v w =
  (y <- invoked_transformed f x ;; ret (dict_set v (cf_name f) y)) w'.
Proof.
  intros Hp Hg Hc. unfold serialize_field. rewrite Hp.
  erewrite bind_ok by (unfold catch_missing; rewrite Hg; reflexivity).
  cbv beta iota. rewrite Hc. reflexivity.
Qed.

(** Lines 193 and 198 for an optional field whose value is [None]. *)
Lemma serialize_field_optional_None w w' :
  cf_pass_self f = false ->
  call_getter1 (cf_getter f) inst w = (w', inr VNone) ->
  cf_required f = false ->
  serialize_field self inst f v w =
  (w', inr (dict_set v (cf_name f) VNone)).
Proof.
  intros Hp Hg Hr. unfold serialize_field, bind, catch_missing.
  rewrite Hp, Hg, Hr. reflexivity.
Qed.

(** An iteration either leaves the mapping alone or assigns to the field's
    own output name. *)
Lemma serialize_field_inv w w' v' :
  serialize_field self inst f v w = (w', inr v') ->
  v' = v \/ exists y, v' = dict_set v (cf_name f) y.
Proof.
  unfold serialize_field. destruct (cf_pass_self f).
  - intros H. apply bind_inv_ok in H as (w1 & x & _ & H).
    inversion H; subst. right. eauto.
  - intros H. apply bind_inv_ok in H as (w1 & r & _ & H).
    destruct r as [e|x].
    + destruct (cf_required f); inversion H; subst. now left.
    + apply bind_inv_ok in H as (w2 & y & _ & H).
      inversion H; subst. right. eauto.
Qed.

Lemma serialize_field_get_other w w' v' k :
  serialize_field self inst f v w = (w', inr v') ->
  cf_name f <> k ->
  dict_get v' k = dict_get v k.
Proof.
  intros H Hk. apply serialize_field_inv in H as [->|[y ->]]; auto.
  now apply dict_get_set_ne.
Qed.
End OneField.

(** ** The loop over the compiled fields *)

Section Loop.
Variables (self : Serializer) (inst : value).

Lemma serialize_loop_app pre post v w :
  serialize_loop self inst (pre ++ post) v w =
  match serialize_loop self inst pre v w with
  | (w1, inr v1) => serialize_loop self inst post v1 w1
  | (w1, inl e) => (w1, inl e)
  end.
Proof.
  revert v w. induction pre as [|f pre IH]; intros v w; simpl.
  - reflexivity.
  - unfold bind. destruct (serialize_field self inst f v w) as [w1 [e|v1]].
    + reflexivity.
    + apply IH.
Qed.

(** A key no field of the plan is named after keeps its binding. *)
Lemma serialize_loop_get_other fs v w w' d k :
  serialize_loop self inst fs v w = (w', inr d) ->
  Forall (fun h => cf_name h <> k) fs ->
  dict_get d k = dict_get v k.
Proof.
  revert v w. induction fs as [|f fs IH]; intros v w H Hk; simpl in H.
  - inversion H. reflexivity.
  - apply bind_inv_ok in H as (w1 & v1 & Hf & Hl).
    inversion Hk as [|? ? Hf' Hk']; subst.
    rewrite (IH _ _ Hl Hk'). eapply serialize_field_get_other; eauto.
Qed.

Lemma _serialize_eq cfs w :
  _serialize self inst cfs w =
  match serialize_loop self inst cfs [] (after_alloc w) with
  | (w', inr d) => (w', inr (VDict (next_addr w) d))
  | (w', inl e) => (w', inl e)
  end.
Proof.
  unfold _serialize, bind, alloc, ret.
  destruct (serialize_loop self inst cfs [] (after_alloc w)) as [w' [e|d]];
    reflexivity.
Qed.

(** Execution reaches field [f] once the fields before it are done. *)
Lemma serialize_loop_reach pre f post w v w1 v1 :
  serialize_loop self inst pre v w = (w1, inr v1) ->
  serialize_loop self inst (pre ++ f :: post) v w =
  (v' <- serialize_field self inst f v1 ;; serialize_loop self inst post v') w1.
Proof. intros H. rewrite serialize_loop_app, H. reflexivity. Qed.

Lemma _serialize_raise_at pre f post w0 w1 v w2 e :
  serialize_loop self inst pre [] (after_alloc w0) = (w1, inr v) ->
  serialize_field self inst f v w1 = (w2, inl e) ->
  _serialize self inst (pre ++ f :: post) w0 = (w2, inl e).
Proof.
  intros Hpre Hf. rewrite _serialize_eq, (serialize_loop_reach _ _ _ _ _ _ _ Hpre).
  now rewrite (bind_raise _ _ _ _ _ Hf).
Qed.

Lemma _serialize_continue_at pre f post w0 w1 v w2 v' w3 d :
  serialize_loop self inst pre [] (after_alloc w0) = (w1, inr v) ->
  serialize_field self inst f v w1 = (w2, inr v') ->
  serialize_loop self inst post v' w2 = (w3, inr d) ->
  _serialize self inst (pre ++ f :: post) w0 =
  (w3, inr (VDict (next_addr w0) d)).
Proof.
  intros Hpre Hf Hpost.
  rewrite _serialize_eq, (serialize_loop_reach _ _ _ _ _ _ _ Hpre).
  now rewrite (bind_ok _ _ _ _ _ Hf), Hpost.
Qed.

(** The empty mapping has no key, and the fields before [f] add none of
    [f]'s name when none of them is named like [f]. *)
Lemma prefix_lacks_name pre w w1 v k :
  serialize_loop self inst pre [] w = (w1, inr v) ->
  Forall (fun h => cf_name h <> k) pre ->
  dict_get v k = None.
Proof. intros H Hk. now rewrite (serialize_loop_get_other _ _ _ _ _ _ H Hk). Qed.

(** C1, as amended.  A field read with the one-argument extractor, on a
    source that lacks its attribute or key (the extractor raises [KeyError]
    or [AttributeError]), once the fields before it have been extracted:
    - if the field is required, [_serialize] raises that very exception;
    - if it is not, the field assigns nothing: the output is the mapping the
      remaining fields complete, and the field's output name is not a key of
      it (no binding to [None] either) as long as no other field of the plan
      is stored under that name. *)
Theorem missing_value_default_extractor pre f post w0 w1 v w2 e :
  cf_pass_self f = false ->
  serialize_loop self inst pre [] (after_alloc w0) = (w1, inr v) ->
  call_getter1 (cf_getter f) inst w1 = (w2, inl e) ->
  is_missing e = true ->
  (cf_required f = true ->
   _serialize self inst (pre ++ f :: post) w0 = (w2, inl e))
  /\ (cf_required f = false ->
      forall w3 d,
        serialize_loop self inst post v w2 = (w3, inr d) ->
        _serialize self inst (pre ++ f :: post) w0 =
          (w3, inr (VDict (next_addr w0) d))
        /\ (Forall (fun h => cf_name h <> cf_name f) (pre ++ post) ->
            dict_get d (cf_name f) = None)).
Proof.
  intros Hp Hpre Hg He. split; intros Hr.
  - eapply _serialize_raise_at; eauto.
    now apply serialize_field_missing_required.
  - intros w3 d Hpost. split.
    + eapply _serialize_continue_at; eauto.
      now apply serialize_field_missing_optional with (e := e).
    + intros Hn. apply Forall_app in Hn as [Hn1 Hn2].
      rewrite (serialize_loop_get_other _ _ _ _ _ _ Hpost Hn2).
      eapply prefix_lacks_name; eauto.
Qed.

(** C3, as amended.  A required field whose extraction returns a value [x],
    whatever [x] is (zero, [False] and the empty string included: nothing
    tests the truth value of [x]), is stored under its output name with its
    value: [x] invoked and transformed as the field's flags say (or [x]
    itself when the extractor takes the serializer).  The output mapping binds the name to
    that value as long as no later field is stored under the same name. *)
Theorem required_present_value_included pre f post w0 w1 v w2 x w3 y w4 d :
  cf_required f = true ->
  serialize_loop self inst pre [] (after_alloc w0) = (w1, inr v) ->
  extract self inst f w1 = (w2, inr x) ->
  (if cf_pass_self f then ret x else invoked_transformed f x) w2
    = (w3, inr y) ->
  serialize_loop self inst post (dict_set v (cf_name f) y) w3 = (w4, inr d) ->
  _serialize self inst (pre ++ f :: post) w0 =
    (w4, inr (VDict (next_addr w0) d))
  /\ (Forall (fun h => cf_name h <> cf_name f) post ->
      dict_get d (cf_name f) = Some y).
Proof.
  intros Hr Hpre Hx Hy Hpost.
  assert (Hf : serialize_field self inst f v w1
               = (w3, inr (dict_set v (cf_name f) y))).
  { unfold extract in Hx. destruct (cf_pass_self f) eqn:Hp.
    - rewrite serialize_field_pass_self by assumption.
      rewrite (bind_ok _ _ _ _ _ Hx). inversion Hy. reflexivity.
    - rewrite (serialize_field_present _ _ _ _ _ _ _ Hp Hx)
        by (rewrite Hr; reflexivity).
      now rewrite (bind_ok _ _ _ _ _ Hy). }
  split.
  - eapply _serialize_continue_at; eauto.
  - intros Hn. rewrite (serialize_loop_get_other _ _ _ _ _ _ Hpost Hn).
    apply dict_get_set_eq.
Qed.

(** C9.  A field whose extractor takes the serializer: the iteration is
    [v[name] = getter(self, instance)] and nothing else.  Whatever the flags
    [required] and [call] and the transform are, the value the extractor
    returns is stored as it is, and an exception it raises (a missing
    key or attribute included) leaves [_serialize]. *)
Theorem pass_self_stored_directly pre f post g w0 w1 v :
  cf_pass_self f = true ->
  cf_getter f = Getter2 g ->
  serialize_loop self inst pre [] (after_alloc w0) = (w1, inr v) ->
  (forall w2 x,
     g self inst w1 = (w2, inr x) ->
     serialize_field self inst f v w1 = (w2, inr (dict_set v (cf_name f) x))
     /\ forall w3 d,
          serialize_loop self inst post (dict_set v (cf_name f) x) w2
            = (w3, inr d) ->
          _serialize self inst (pre ++ f :: post) w0 =
            (w3, inr (VDict (next_addr w0) d))
          /\ (Forall (fun h => cf_name h <> cf_name f) post ->
              dict_get d (cf_name f) = Some x))
  /\ (forall w2 e,
        g self inst w1 = (w2, inl e) ->
        _serialize self inst (pre ++ f :: post) w0 = (w2, inl e)).
Proof.
  intros Hp Hg Hpre. split.
  - intros w2 x Hx.
    assert (Hf : serialize_field self inst f v w1
                 = (w2, inr (dict_set v (cf_name f) x))).
    { rewrite serialize_field_pass_self by assumption.
      rewrite Hg. simpl. now rewrite (bind_ok _ _ _ _ _ Hx). }
    split; [exact Hf|]. intros w3 d Hpost. split.
    + eapply _serialize_continue_at; eauto.
    + intros Hn. rewrite (serialize_loop_get_other _ _ _ _ _ _ Hpost Hn).
      apply dict_get_set_eq.
  - intros w2 e He. eapply _serialize_raise_at; eauto.
    rewrite serialize_field_pass_self by assumption.
    rewrite Hg. simpl. now rewrite (bind_raise _ _ _ _ _ He).
Qed.

(** C10, as amended.  An optional field whose extraction succeeds and
    returns [None]: the iteration stores [None] under the output name and
    does nothing else (the world is the one the extractor left, and the
    outcome is the same for every setting of the [call] flag and of the
    transform), so the key is present in the output and bound to [None] as long as no later field
    is stored under the same name. *)
Theorem optional_None_is_stored pre f post w0 w1 v w2 w3 d :
  cf_required f = false ->
  cf_pass_self f = false ->
  serialize_loop self inst pre [] (after_alloc w0) = (w1, inr v) ->
  call_getter1 (cf_getter f) inst w1 = (w2, inr VNone) ->
  serialize_loop self inst post (dict_set v (cf_name f) VNone) w2
    = (w3, inr d) ->
  (forall c t,
     serialize_field self inst
       (mkCompiled (cf_name f) (cf_getter f) t c false false) v w1
     = (w2, inr (dict_set v (cf_name f) VNone)))
  /\ _serialize self inst (pre ++ f :: post) w0 =
       (w3, inr (VDict (next_addr w0) d))
  /\ (Forall (fun h => cf_name h <> cf_name f) post ->
      dict_get d (cf_name f) = Some VNone).
Proof.
  intros Hr Hp Hpre Hg Hpost. split; [|split].
  - intros c t.
    apply (serialize_field_optional_None self inst
             (mkCompiled (cf_name f) (cf_getter f) t c false false) v w1 w2);
      auto.
  - eapply _serialize_continue_at; eauto.
    now apply serialize_field_optional_None.
  - intros Hn. rewrite (serialize_loop_get_other _ _ _ _ _ _ Hpost Hn).
    apply dict_get_set_eq.
Qed.

End Loop.

(** Two fields stored under one output name: the later assignment wins.
    Here [name] is relabelled [nick] and the optional field [nick] is absent
    from the source; the key [nick] is in the output, written by the other
    field.  This is why the statements above speak of the other fields of
    the plan. *)
Lemma shared_output_name_last_writer :
  _serialize ex_self ex_user [cf_name_as_nick; cf_plain "nick" false] w_init
  = (mkWorld [] 1, inr (VDict 0 [("nick", VStr "ann")])).
Proof. reflexivity. Qed.

(** ** Batch mode *)

Section Batch.
Variables (cfs : list compiled_field) (self : Serializer).

Lemma mapM_serialize_each os w ds w' :
  serialize_each self cfs os w ds w' ->
  mapM (fun o => _serialize self o cfs) os w = (w', inr ds).
Proof.
  induction 1 as [w|o os w w1 d ds w2 Ho _ IH]; simpl.
  - reflexivity.
  - rewrite (bind_ok _ _ _ _ _ Ho), (bind_ok _ _ _ _ _ IH). reflexivity.
Qed.

Lemma serialize_each_length os w ds w' :
  serialize_each self cfs os w ds w' -> length ds = length os.
Proof. induction 1; simpl; congruence. Qed.

(** The output at position [i] is the output of the element at position
    [i]. *)
Lemma serialize_each_lookup os w ds w' i o :
  serialize_each self cfs os w ds w' ->
  os !! i = Some o ->
  exists wi wi' d,
    ds !! i = Some d /\ _serialize self o cfs wi = (wi', inr d).
Proof.
  intros H. revert i. induction H as [w|o' os w w1 d ds w2 Ho _ IH];
    intros i Hi.
  - destruct i; discriminate.
  - destruct i as [|i]; simpl in *.
    + inversion Hi; subst. eauto.
    + apply IH in Hi. exact Hi.
Qed.

Lemma mapM_serialize_each_inv os w ds w' :
  mapM (fun o => _serialize self o cfs) os w = (w', inr ds) ->
  serialize_each self cfs os w ds w'.
Proof.
  revert w ds. induction os as [|o os IH]; intros w ds H; simpl in H.
  - inversion H; subst. constructor.
  - apply bind_inv_ok in H as (w1 & d & Ho & H).
    apply bind_inv_ok in H as (w2 & ds' & Hos & H).
    inversion H; subst. econstructor; eauto.
Qed.

(** C8.  With [many] set, [to_value] runs [_serialize] on every element the
    collection yields, first to last, each run starting in the world the run
    before it left, and returns the list of their outputs in that order. *)
Theorem many_serializes_each_in_order inst w os ds w' :
  many self = true ->
  py_iter inst w = (w, inr os) ->
  serialize_each self cfs os (after_alloc w) ds w' ->
  to_value cfs self inst w = (w', inr (VList (next_addr w) ds))
  /\ length ds = length os
  /\ (forall i o, os !! i = Some o ->
       exists wi wi' d,
         ds !! i = Some d /\ _serialize self o cfs wi = (wi', inr d)).
Proof.
  intros Hm Hi He. split; [|split].
  - unfold to_value. rewrite Hm.
    rewrite (bind_ok _ _ _ _ _ Hi).
    erewrite bind_ok by reflexivity.
    rewrite (bind_ok _ _ _ _ _ (mapM_serialize_each _ _ _ _ He)).
    reflexivity.
  - eapply serialize_each_length; eauto.
  - intros i o Ho. eapply serialize_each_lookup; eauto.
Qed.

(** Without [many], [to_value] is [_serialize] on the instance itself. *)
Lemma to_value_single inst w :
  many self = false ->
  to_value cfs self inst w = _serialize self inst cfs w.
Proof. intros Hm. unfold to_value. now rewrite Hm. Qed.

(** What [to_value] returns is a mapping or a list, never [None]. *)
Lemma to_value_not_None inst w w' v :
  to_value cfs self inst w = (w', inr v) -> is_None v = false.
Proof.
  unfold to_value. destruct (many self).
  - intros H. apply bind_inv_ok in H as (w1 & os & _ & H).
    apply bind_inv_ok in H as (w2 & a & _ & H).
    apply bind_inv_ok in H as (w3 & vs & _ & H).
    inversion H. reflexivity.
  - rewrite _serialize_eq.
    destruct (serialize_loop self inst cfs [] (after_alloc w)) as [w1 [e|d]];
      intros H; inversion H. reflexivity.
Qed.

End Batch.

(** ** The cached output *)

(** [__init__] refuses a [data] argument and otherwise builds an instance
    whose output is not computed yet. *)
Lemma Serializer_init_fresh inst m :
  Serializer_init inst m VNone = inr (mkSerializer inst m VNone).
Proof. reflexivity. Qed.

Lemma Serializer_init_rejects_data inst m d :
  is_None d = false ->
  exists msg, Serializer_init inst m d = inl (RuntimeError msg).
Proof. intros H. unfold Serializer_init. rewrite H. simpl. eauto. Qed.

Lemma data_first_access cfs self w :
  _data self = VNone ->
  data cfs self w =
  match to_value cfs self (instance self) w with
  | (w', inr v) => (mkSerializer (instance self) (many self) v, w', inr v)
  | (w', inl e) => (self, w', inl e)
  end.
Proof. intros H. unfold data. now rewrite H. Qed.

Lemma data_cached cfs self w :
  is_None (_data self) = false ->
  data cfs self w = (self, w, inr (_data self)).
Proof. intros H. unfold data. now rewrite H. Qed.

Lemma data_stores cfs self w self1 w1 v :
  data cfs self w = (self1, w1, inr v) ->
  _data self1 = v /\ is_None v = false.
Proof.
  unfold data. destruct (is_None (_data self)) eqn:E.
  - destruct (to_value cfs self (instance self) w) as [w' [e|x]] eqn:T;
      intros H; inversion H; subst. split; [reflexivity|].
    eapply to_value_not_None; eauto.
  - intros H; inversion H; subst. auto.
Qed.

(** A read of [data] that raises stores nothing: the instance was fresh and
    stays fresh, so the next read executes again. *)
Lemma data_failure_stores_nothing cfs self w self1 w1 e :
  data cfs self w = (self1, w1, inl e) ->
  self1 = self /\ _data self = VNone
  /\ to_value cfs self (instance self) w = (w1, inl e).
Proof.
  unfold data. destruct (_data self) eqn:E; simpl; try discriminate.
  destruct (to_value cfs self (instance self) w) as [w' [e'|x]];
    intros H; inversion H; subst. auto.
Qed.

(** An exception of [_serialize] reaches the reader of [data]. *)
Lemma data_propagates cfs self w w' e :
  _data self = VNone ->
  many self = false ->
  _serialize self (instance self) cfs w = (w', inl e) ->
  data cfs self w = (self, w', inl e).
Proof.
  intros Hd Hm Hs. rewrite data_first_access by assumption.
  rewrite to_value_single by assumption. now rewrite Hs.
Qed.

(** C4, as amended.  Once a read of [data] has returned a value [v], the
    serializer holds [v] in [_data], and every later read returns that same
    object and changes nothing: no event is added to the trace and nothing is
    allocated, whatever the compiled plan is, so no extraction runs.  The
    first read of a fresh instance is the one that runs [to_value]. *)
Theorem data_cached_after_first_result cfs self w self1 w1 v :
  data cfs self w = (self1, w1, inr v) ->
  (_data self = VNone -> to_value cfs self (instance self) w = (w1, inr v))
  /\ _data self1 = v
  /\ (forall cfs', data cfs' self1 w1 = (self1, w1, inr v))
  /\ (forall n, data_repeat n cfs self1 w1 = (self1, w1, repeat (inr v) n)).
Proof.
  intros H. destruct (data_stores _ _ _ _ _ _ H) as [Hs Hn].
  assert (Hc : forall cfs', data cfs' self1 w1 = (self1, w1, inr v)).
  { intros cfs'. rewrite data_cached; rewrite Hs; auto. }
  split; [|split; [|split]]; auto.
  - intros Hf. rewrite data_first_access in H by assumption.
    destruct (to_value cfs self (instance self) w) as [w' [e|x]];
      inversion H; subst; reflexivity.
  - induction n as [|n IH]; simpl.
    + reflexivity.
    + now rewrite Hc, IH.
Qed.

(** ** More on dictionaries *)

Lemma dict_get_None {V} (d : dict V) k :
  dict_get d k = None <-> ~ In k (dict_keys d).
Proof.
  induction d as [|[k' v] d IH]; simpl.
  - tauto.
  - destruct (String.eqb k' k) eqn:E.
    + apply String.eqb_eq in E. subst. split; [discriminate|tauto].
    + apply String.eqb_neq in E. rewrite IH. tauto.
Qed.

Lemma dict_get_Some_In {V} (d : dict V) k :
  In k (dict_keys d) <-> exists v, dict_get d k = Some v.
Proof.
  destruct (dict_get d k) as [v|] eqn:E.
  - split; [eauto|]. intros _.
    destruct (in_dec string_dec k (dict_keys d)) as [H|H]; auto.
    apply dict_get_None in H. congruence.
  - split.
    + intros H. apply dict_get_None in E. contradiction.
    + intros [v H]. discriminate.
Qed.

Lemma dict_mem_false {V} (d : dict V) k :
  dict_mem d k = false <-> ~ In k (dict_keys d).
Proof.
  unfold dict_mem. rewrite <- dict_get_None.
  destruct (dict_get d k); split; congruence.
Qed.

Lemma dict_keys_set_new {V} (d : dict V) k v :
  ~ In k (dict_keys d) -> dict_keys (dict_set d k v) = dict_keys d ++ [k].
Proof.
  induction d as [|[k' v'] d IH]; simpl; intros H.
  - reflexivity.
  - destruct (String.eqb k' k) eqn:E.
    + apply String.eqb_eq in E. subst. tauto.
    + simpl. rewrite IH by tauto. reflexivity.
Qed.

Lemma dict_keys_set_old {V} (d : dict V) k v :
  In k (dict_keys d) -> dict_keys (dict_set d k v) = dict_keys d.
Proof.
  induction d as [|[k' v'] d IH]; simpl; intros H.
  - contradiction.
  - destruct (String.eqb k' k) eqn:E; simpl.
    + reflexivity.
    + apply String.eqb_neq in E. rewrite IH; [reflexivity|].
      destruct H; [contradiction|assumption].
Qed.

(** Assignment keeps the keys of a dictionary distinct. *)
Lemma dict_set_NoDup {V} (d : dict V) k v :
  NoDup (dict_keys d) -> NoDup (dict_keys (dict_set d k v)).
Proof.
  intros H. destruct (in_dec string_dec k (dict_keys d)) as [Hin|Hin].
  - now rewrite dict_keys_set_old.
  - rewrite dict_keys_set_new by assumption.
    apply NoDup_app. repeat split; auto.
    + intros x Hx [->|[]]%list_elem_of_In. apply Hin.
      now apply list_elem_of_In.
    + apply NoDup_singleton.
Qed.

Lemma dict_update_NoDup {V} (d o : dict V) :
  NoDup (dict_keys d) -> NoDup (dict_keys (dict_update d o)).
Proof.
  unfold dict_update. revert d.
  induction o as [|[k v] o IH]; intros d H; simpl; auto.
  apply IH. now apply dict_set_NoDup.
Qed.


Lemma dict_update_nil_r {V} (d : dict V) : dict_update d [] = d.
Proof. reflexivity. Qed.

(** ** Schema compilation *)

Lemma rbind_inv {A B} (r : result A) (k : A -> result B) b :
  rbind r k = inr b -> exists a, r = inr a /\ k a = inr b.
Proof. destruct r as [e|a]; simpl; [discriminate|eauto]. Qed.

Lemma rmapM_length {A B} (f : A -> result B) l l' :
  rmapM f l = inr l' -> length l' = length l.
Proof.
  revert l'. induction l as [|x l IH]; intros l' H; simpl in H.
  - inversion H. reflexivity.
  - apply rbind_inv in H as (y & _ & H).
    apply rbind_inv in H as (ys & Hys & H).
    inversion H; subst. simpl. f_equal. now apply IH.
Qed.




Lemma get_field_map_total c fm :
  get_field_map c = inr fm -> _field_map c = fm.
Proof.
  unfold get_field_map, _field_map.
  destruct (class_getattr c "_field_map") as [[]|]; intros H;
    inversion H; reflexivity.
Qed.



(** The direct fields are a dictionary: their names are distinct. *)
Lemma collect_direct_fields_NoDup attrs :
  NoDup (dict_keys (collect_direct_fields attrs)).
Proof.
  unfold collect_direct_fields.
  assert (G : forall (l : dict class_attr) (d : dict Field),
             NoDup (dict_keys d) ->
             NoDup (dict_keys
               (fold_left (fun d kv => match snd kv with
                                       | AField f => dict_set d (fst kv) f
                                       | _ => d
                                       end) l d))).
  { induction l as [|[k a] l IH]; intros d Hd; simpl; auto.
    apply IH. destruct a; auto. now apply dict_set_NoDup. }
  apply G. constructor.
Qed.

Lemma update_direct_loop_NoDup nf items view d d' :
  update_direct_loop nf items view d = inr d' ->
  NoDup (dict_keys d) -> NoDup (dict_keys d').
Proof.
  revert d. induction items as [|i items IH]; intros d H Hd; simpl in H.
  - inversion H; subst. assumption.
  - apply rbind_inv in H as (n & _ & H).
    destruct (in_view n view d); simpl in H; eapply IH; eauto.
    now apply dict_set_NoDup.
Qed.

Lemma expand_meta_NoDup nf meta d d' :
  expand_meta nf meta d = inr d' ->
  NoDup (dict_keys d) -> NoDup (dict_keys d').
Proof.
  unfold expand_meta, _update_direct_fields. intros H Hd.
  destruct (model meta) as [mdl|]; [|discriminate].
  destruct (negb (fields_truthy (fields meta))
            && negb (exclude_truthy (exclude meta))); [discriminate|].
  destruct (fields_truthy (fields meta) && exclude_truthy (exclude meta));
    [discriminate|].
  destruct (_meta mdl) as [mf|]; [|destruct (__table__ mdl) as [cols|]];
    try discriminate;
    apply rbind_inv in H as (items & _ & H);
    eapply update_direct_loop_NoDup; eauto.
Qed.

Lemma declared_fields_NoDup nf cname tail attrs d :
  declared_fields nf cname tail attrs = inr d -> NoDup (dict_keys d).
Proof.
  unfold declared_fields. intros H.
  pose proof (collect_direct_fields_NoDup attrs) as Hc.
  destruct (class_getattr (type_new cname tail attrs) "Meta") as [meta|].
  - destruct (attr_truthy meta).
    + eapply expand_meta_NoDup; eauto.
    + inversion H; subst. assumption.
  - inversion H; subst. assumption.
Qed.

Lemma field_map_of_new n b d tail fm cf :
  _field_map
    (PyClass n b
       (dict_set (dict_set d "_field_map" (AFieldMap fm))
                 "_compiled_fields" (ACompiledFields cf)) tail) = fm.
Proof.
  unfold _field_map, class_getattr. simpl.
  rewrite dict_get_set_ne by discriminate.
  now rewrite dict_get_set_eq.
Qed.

Lemma compiled_fields_of_new n b d tail cf :
  _compiled_fields
    (PyClass n b (dict_set d "_compiled_fields" (ACompiledFields cf)) tail)
  = cf.
Proof.
  unfold _compiled_fields, class_getattr. simpl.
  now rewrite dict_get_set_eq.
Qed.

(** What [SerializerMeta.__new__] returns, when it returns: the class of line
    78 with the two attributes of lines 137-138. *)
Lemma SerializerMeta_new_inv nf cname tail attrs T :
  SerializerMeta_new nf cname tail attrs = inr T ->
  exists direct,
    declared_fields nf cname tail attrs = inr direct
    /\ _get_fields direct (type_new cname tail attrs) = inr (_field_map T)
    /\ _compile_fields (_field_map T) (type_new cname tail attrs)
       = inr (_compiled_fields T)
    /\ __mro__ T = T :: tail.
Proof.
  unfold SerializerMeta_new. intros H.
  apply rbind_inv in H as (direct & Hd & H).
  apply rbind_inv in H as (fm & Hf & H).
  apply rbind_inv in H as (cf & Hc & H).
  injection H as <-. exists direct.
  rewrite field_map_of_new, compiled_fields_of_new. auto.
Qed.




Lemma ancestor_maps_cons c l :
  ancestor_maps (c :: l) =
  if issubclass_SerializerBase c then _field_map c :: ancestor_maps l
  else ancestor_maps l.
Proof.
  unfold ancestor_maps, schema_ancestors. simpl.
  now destruct (issubclass_SerializerBase c).
Qed.


(** What an ancestor contributes is its field map, and a field map holds the
    descriptors the ancestor inherited as well as those it declares.  In the
    diamond, [Left] is the nearest ancestor of [Bottom] and its field map
    has the [x] of [Top]; that descriptor wins over the [x] that [Right],
    farther along the MRO, declares again. *)
Lemma diamond_nearest_field_map_wins :
  map (fun kv => (fst kv, required (snd kv))) (_field_map ex_Left_cls)
    = [("x", true)]
  /\ map (fun kv => (fst kv, required (snd kv))) (_field_map ex_Right_cls)
     = [("x", false)]
  /\ map (fun kv => (fst kv, required (snd kv))) (_field_map ex_Bottom_cls)
     = [("x", true)].
Proof. repeat split; reflexivity. Qed.

(** ** The [Meta] declaration *)

Section MetaDeclared.
Variables (nf : Field) (cname : string) (tail : list pyclass).
Variables (attrs : dict class_attr) (m : Meta).
Hypothesis Hmeta :
  class_getattr (type_new cname tail attrs) "Meta" = Some (AMeta m).

Lemma declared_fields_with_Meta :
  declared_fields nf cname tail attrs =
  expand_meta nf m (collect_direct_fields attrs).
Proof. unfold declared_fields. now rewrite Hmeta. Qed.

Lemma new_fails_with_declared e :
  declared_fields nf cname tail attrs = inl e ->
  SerializerMeta_new nf cname tail attrs = inl e.
Proof. intros H. unfold SerializerMeta_new. now rewrite H. Qed.

(** C7.  With a [Meta] declaration in force, each of the four invalid
    configurations makes [SerializerMeta.__new__] raise [RuntimeError], so no
    class and no compiled plan exist: no model; an inclusion and an exclusion
    list together; a model but neither list; a model no adapter recognises.
    Conversely a class the metaclass returns has a model an adapter
    recognises and exactly one of the two lists, so nothing of the kind is
    left to fail when the plan is executed. *)
Theorem invalid_Meta_raises_at_definition :
  (model m = None ->
   SerializerMeta_new nf cname tail attrs =
   inl (RuntimeError
          "If you specifiy a Meta class, you need to specify a model"))
  /\ (fields_truthy (fields m) = true ->
      exclude_truthy (exclude m) = true ->
      exists msg,
        SerializerMeta_new nf cname tail attrs = inl (RuntimeError msg))
  /\ (forall mdl,
        model m = Some mdl ->
        fields_truthy (fields m) = false ->
        exclude_truthy (exclude m) = false ->
        SerializerMeta_new nf cname tail attrs =
        inl (RuntimeError
               "You need to specifiy either `fields` or `exclude` in Meta"))
  /\ (forall mdl,
        model m = Some mdl ->
        canonical_fields mdl = None ->
        exists msg,
          SerializerMeta_new nf cname tail attrs = inl (RuntimeError msg))
  /\ (forall T,
        SerializerMeta_new nf cname tail attrs = inr T ->
        exists mdl canon,
          model m = Some mdl
          /\ canonical_fields mdl = Some canon
          /\ fields_truthy (fields m) = negb (exclude_truthy (exclude m))).
Proof.
  split; [|split; [|split; [|split]]].
  - intros Hm. apply new_fails_with_declared.
    rewrite declared_fields_with_Meta. unfold expand_meta. now rewrite Hm.
  - intros Hf He. destruct (model m) as [mdl|] eqn:Hm.
    + eexists. apply new_fails_with_declared.
      rewrite declared_fields_with_Meta. unfold expand_meta.
      rewrite Hm, Hf, He. reflexivity.
    + eexists. apply new_fails_with_declared.
      rewrite declared_fields_with_Meta. unfold expand_meta.
      rewrite Hm. reflexivity.
  - intros mdl Hm Hf He. apply new_fails_with_declared.
    rewrite declared_fields_with_Meta. unfold expand_meta.
    rewrite Hm, Hf, He. reflexivity.
  - intros mdl Hm Hc. unfold canonical_fields in Hc.
    destruct (_meta mdl) eqn:H1; [discriminate|].
    enough (exists msg, expand_meta nf m (collect_direct_fields attrs)
                        = inl (RuntimeError msg)) as [msg Hx].
    { exists msg. apply new_fails_with_declared.
      now rewrite declared_fields_with_Meta. }
    unfold expand_meta. rewrite Hm, H1, Hc.
    destruct (negb (fields_truthy (fields m))
              && negb (exclude_truthy (exclude m))); [eauto|].
    destruct (fields_truthy (fields m) && exclude_truthy (exclude m)); eauto.
  - intros T HT. apply SerializerMeta_new_inv in HT as (direct & Hd & _).
    rewrite declared_fields_with_Meta in Hd. unfold expand_meta in Hd.
    destruct (model m) as [mdl|]; [|discriminate].
    destruct (canonical_fields mdl) as [canon|] eqn:Hc.
    + exists mdl, canon. split; [reflexivity|]. split; [assumption|].
      destruct (fields_truthy (fields m)), (exclude_truthy (exclude m));
        simpl in Hd; try discriminate; reflexivity.
    + exfalso. unfold canonical_fields in Hc.
      destruct (_meta mdl); [discriminate|]. rewrite Hc in Hd.
      destruct (fields_truthy (fields m)), (exclude_truthy (exclude m));
        simpl in Hd; discriminate.
Qed.

End MetaDeclared.

(** Reading [name] from a plain string raises, whatever comes after it and
    whatever is declared on the class. *)
Lemma update_direct_loop_str nf s rest view d :
  update_direct_loop nf (ItemStr s :: rest) view d
  = inl (AttributeError "name").
Proof. reflexivity. Qed.

(** C5, on the code.  A [Meta] with a model an adapter recognises (a Django
    model, or an SQLAlchemy one) and an inclusion list of field names
    (strings), no exclusion list: line 63 reads [field.name] from the first
    name of the list and the class definition raises [AttributeError]; no
    schema type is built. *)
Theorem inclusion_list_of_names_raises nf cname tail canon tbl n names :
  SerializerMeta_new nf cname tail
    (Meta_only (mkMeta (Some (mkModel (Some canon) tbl))
                       (FieldsList (map ItemStr (n :: names))) None))
  = inl (AttributeError "name")
  /\ SerializerMeta_new nf cname tail
       (Meta_only (mkMeta (Some (mkModel None (Some canon)))
                          (FieldsList (map ItemStr (n :: names))) None))
     = inl (AttributeError "name").
Proof. split; reflexivity. Qed.

(** ** Implicit fields from an exclusion list *)

Lemma merge_bases_no_fields classes :
  Forall (fun c => issubclass_SerializerBase c = true ->
                   get_field_map c = inr []) classes ->
  merge_bases classes [] = inr [].
Proof.
  induction 1 as [|c rest Hc _ IH]; simpl; [reflexivity|].
  destruct (issubclass_SerializerBase c); [|assumption].
  rewrite (Hc eq_refl). simpl. exact IH.
Qed.

Lemma _get_fields_no_inherited direct cls :
  Forall (fun c => issubclass_SerializerBase c = true ->
                   get_field_map c = inr []) (__mro__ cls) ->
  _get_fields direct cls = inr (dict_update [] direct).
Proof.
  intros H. unfold _get_fields. rewrite merge_bases_no_fields; [reflexivity|].
  now apply List.Forall_rev.
Qed.

(** Compiling a descriptor that has no label keeps the declared name. *)
Lemma _compile_field_to_tuple_default_getter f n cls mk :
  class_getattr cls "default_getter" = Some (AGetterFactory mk) ->
  exists cf, _compile_field_to_tuple f n cls = inr cf
             /\ cf_name cf = or_name (label f) n
             /\ cf_call cf = call f
             /\ cf_required cf = required f
             /\ cf_pass_self cf = getter_takes_serializer f.
Proof.
  intros Hg. unfold _compile_field_to_tuple, default_getter. rewrite Hg.
  destruct (as_getter f n (class_method cls)); simpl; eauto 10.
Qed.


(** The same declaration compiles when the inclusion list holds objects that
    have a [name] (the model's own field objects), and with ['__all__']. *)
Lemma inclusion_list_of_field_objects_compiles nf :
  label nf = None ->
  exists T,
    SerializerMeta_new nf "UserSerializer" (__mro__ Serializer_cls)
      (Meta_only (mkMeta (Some ex_model)
                    (FieldsList [ItemField (mkModelField "id");
                                 ItemField (mkModelField "name")]) None))
    = inr T
    /\ dict_keys (_field_map T) = ["id"; "name"]
    /\ map cf_name (_compiled_fields T) = ["id"; "name"].
Proof.
  intros Hl.
  destruct (_compile_field_to_tuple_default_getter nf "id"
              (type_new "UserSerializer" (__mro__ Serializer_cls)
                 (Meta_only (mkMeta (Some ex_model)
                    (FieldsList [ItemField (mkModelField "id");
                                 ItemField (mkModelField "name")]) None)))
              (fun n => Getter1 (attrgetter n)) eq_refl)
    as (c1 & Hc1 & Hn1 & _).
  destruct (_compile_field_to_tuple_default_getter nf "name"
              (type_new "UserSerializer" (__mro__ Serializer_cls)
                 (Meta_only (mkMeta (Some ex_model)
                    (FieldsList [ItemField (mkModelField "id");
                                 ItemField (mkModelField "name")]) None)))
              (fun n => Getter1 (attrgetter n)) eq_refl)
    as (c2 & Hc2 & Hn2 & _).
  rewrite Hl in Hn1, Hn2. simpl in Hn1, Hn2.
  eexists. split; [|split].
  - unfold SerializerMeta_new.
    change (declared_fields nf "UserSerializer" (__mro__ Serializer_cls)
              (Meta_only (mkMeta (Some ex_model)
                    (FieldsList [ItemField (mkModelField "id");
                                 ItemField (mkModelField "name")]) None)))
      with (@inr exn _ [("id", nf); ("name", nf)]).
    cbn [rbind].
    rewrite _get_fields_no_inherited
      by (repeat constructor; intros H; first [discriminate H|reflexivity]).
    cbn [rbind].
    change (dict_update [] [("id", nf); ("name", nf)])
      with [("id", nf); ("name", nf)].
    unfold _compile_fields. cbn [rmapM fst snd].
    rewrite Hc1. cbn [rbind]. rewrite Hc2. cbn [rbind]. reflexivity.
  - rewrite field_map_of_new. reflexivity.
  - rewrite compiled_fields_of_new. cbn [map]. now rewrite Hn1, Hn2.
Qed.

(** ** The standard lookup strategies and classes *)

Lemma attrgetter_missing n attrs w :
  split_dots n = [n] ->
  dict_get attrs n = None ->
  attrgetter n (VObject attrs) w = (w, inl (AttributeError n)).
Proof.
  intros Hs Hn. unfold attrgetter. rewrite Hs. simpl. unfold bind. simpl.
  now rewrite Hn.
Qed.

Lemma attrgetter_present n attrs x w :
  split_dots n = [n] ->
  dict_get attrs n = Some x ->
  attrgetter n (VObject attrs) w = (w, inr x).
Proof.
  intros Hs Hn. unfold attrgetter. rewrite Hs. simpl. unfold bind. simpl.
  now rewrite Hn.
Qed.

Lemma itemgetter_missing k a d w :
  dict_get d k = None ->
  itemgetter k (VDict a d) w = (w, inl (KeyError k)).
Proof. intros H. simpl. now rewrite H. Qed.

Lemma itemgetter_present k a d x w :
  dict_get d k = Some x ->
  itemgetter k (VDict a d) w = (w, inr x).
Proof. intros H. simpl. now rewrite H. Qed.

(** [Serializer] and [DictSerializer] are what the metaclass returns for
    their class bodies. *)
Lemma Serializer_cls_built nf :
  SerializerMeta_new nf "Serializer" [SerializerBase_cls; Field_cls; object_cls]
    Serializer_attrs = inr Serializer_cls.
Proof. reflexivity. Qed.

Lemma DictSerializer_cls_built nf :
  SerializerMeta_new nf "DictSerializer" (__mro__ Serializer_cls)
    DictSerializer_attrs = inr DictSerializer_cls.
Proof. reflexivity. Qed.

(** The plan the metaclass compiles for [UserSerializer]. *)
Lemma ex_User_compiled nf :
  exists T,
    SerializerMeta_new nf "UserSerializer" (__mro__ Serializer_cls)
      ex_User_attrs = inr T
    /\ _compiled_fields T = ex_User_plan.
Proof. eexists. split; reflexivity. Qed.

(** ** Worked instances *)

(** [ex_user] has no [email]: with [email] required the serialization raises
    [AttributeError]; it has no [nick] either, and with [nick] optional the
    output has the keys [name] and [age] only. *)
Lemma missing_value_default_extractor_witness :
  _serialize ex_self ex_user [cf_plain "name" true; cf_plain "email" true]
    w_init = (mkWorld [] 1, inl (AttributeError "email"))
  /\ _serialize ex_self ex_user ex_User_plan w_init
     = (mkWorld [] 1,
        inr (VDict 0 [("name", VStr "ann"); ("age", VInt 0)]))
  /\ dict_get [("name", VStr "ann"); ("age", VInt 0)] "nick" = None.
Proof.
  split.
  - refine (proj1 (missing_value_default_extractor ex_self ex_user
                     [cf_plain "name" true] (cf_plain "email" true) []
                     w_init (mkWorld [] 1) [("name", VStr "ann")]
                     (mkWorld [] 1) (AttributeError "email")
                     _ _ _ _) _); reflexivity.
  - pose proof (proj2 (missing_value_default_extractor ex_self ex_user
                     [cf_plain "name" true] (cf_plain "nick" false)
                     [cf_plain "age" true]
                     w_init (mkWorld [] 1) [("name", VStr "ann")]
                     (mkWorld [] 1) (AttributeError "nick")
                     eq_refl eq_refl eq_refl eq_refl) eq_refl
                  (mkWorld [] 1) [("name", VStr "ann"); ("age", VInt 0)]
                  eq_refl) as [H1 H2].
    split; [exact H1|]. apply H2.
    repeat constructor; discriminate.
Defined.

(** The three attributes of [ex_falsy] are zero, [False] and the empty
    string; all three required fields are in the output. *)
Lemma required_present_value_included_witness :
  _serialize ex_self ex_falsy
    [cf_plain "n" true; cf_plain "b" true; cf_plain "s" true] w_init
  = (mkWorld [] 1,
     inr (VDict 0 [("n", VInt 0); ("b", VBool false); ("s", VStr EmptyString)]))
  /\ dict_get [("n", VInt 0); ("b", VBool false); ("s", VStr EmptyString)] "b"
     = Some (VBool false)
  /\ truthy (VBool false) = false.
Proof.
  pose proof (required_present_value_included ex_self ex_falsy
                [cf_plain "n" true] (cf_plain "b" true) [cf_plain "s" true]
                w_init (mkWorld [] 1) [("n", VInt 0)]
                (mkWorld [] 1) (VBool false) (mkWorld [] 1) (VBool false)
                (mkWorld [] 1)
                [("n", VInt 0); ("b", VBool false); ("s", VStr EmptyString)]
                eq_refl eq_refl eq_refl eq_refl eq_refl) as [H1 H2].
  split; [exact H1|]. split; [|reflexivity].
  apply H2. repeat constructor; discriminate.
Defined.

(** [cf_is_many] has the [call] flag and a transform, yet the value its
    extractor returns is stored as it is; [cf_method_fails] is optional, yet
    its [KeyError] leaves [_serialize]. *)
Lemma pass_self_stored_directly_witness :
  _serialize ex_self ex_user [cf_plain "name" true; cf_is_many] w_init
  = (mkWorld [] 1,
     inr (VDict 0 [("name", VStr "ann"); ("is_many", VBool false)]))
  /\ _serialize ex_self ex_user [cf_plain "name" true; cf_method_fails]
       w_init
     = (mkWorld [] 1, inl (KeyError "k")).
Proof.
  split.
  - pose proof (proj1 (pass_self_stored_directly ex_self ex_user
                  [cf_plain "name" true] cf_is_many []
                  (fun self _ => ret (VBool (many self)))
                  w_init (mkWorld [] 1) [("name", VStr "ann")]
                  eq_refl eq_refl eq_refl)
                (mkWorld [] 1) (VBool false) eq_refl) as [_ H].
    exact (proj1 (H (mkWorld [] 1)
                    [("name", VStr "ann"); ("is_many", VBool false)]
                    eq_refl)).
  - exact (proj2 (pass_self_stored_directly ex_self ex_user
                  [cf_plain "name" true] cf_method_fails []
                  (fun _ _ => raise (KeyError "k"))
                  w_init (mkWorld [] 1) [("name", VStr "ann")]
                  eq_refl eq_refl eq_refl)
                (mkWorld [] 1) (KeyError "k") eq_refl).
Defined.

(** [ex_cy] has [nick = None]: the optional field [nick] is in the output,
    bound to [None]; its transform would have left a mark on the trace and
    invoking [None] would have raised. *)
Lemma optional_None_is_stored_witness :
  _serialize ex_self ex_cy
    [cf_plain "name" true; cf_nick_called; cf_plain "age" true] w_init
  = (mkWorld [] 1,
     inr (VDict 0 [("name", VStr "cy"); ("nick", VNone); ("age", VInt 9)]))
  /\ dict_get [("name", VStr "cy"); ("nick", VNone); ("age", VInt 9)] "nick"
     = Some VNone.
Proof.
  pose proof (optional_None_is_stored ex_self ex_cy
                [cf_plain "name" true] cf_nick_called [cf_plain "age" true]
                w_init (mkWorld [] 1) [("name", VStr "cy")]
                (mkWorld [] 1) (mkWorld [] 1)
                [("name", VStr "cy"); ("nick", VNone); ("age", VInt 9)]
                eq_refl eq_refl eq_refl eq_refl eq_refl) as (_ & H1 & H2).
  split; [exact H1|]. apply H2. repeat constructor; discriminate.
Defined.

(** Three users in, three mappings out, in the order of the users. *)
Lemma many_serializes_each_in_order_witness :
  to_value [cf_plain "name" true] ex_self_many (instance ex_self_many) w_init
  = (mkWorld [] 4,
     inr (VList 0 [VDict 1 [("name", VStr "ann")];
                   VDict 2 [("name", VStr "bob")];
                   VDict 3 [("name", VStr "cy")]])).
Proof.
  refine (proj1 (many_serializes_each_in_order [cf_plain "name" true]
                   ex_self_many (instance ex_self_many) w_init
                   [ex_user; ex_bob; ex_cy]
                   [VDict 1 [("name", VStr "ann")];
                    VDict 2 [("name", VStr "bob")];
                    VDict 3 [("name", VStr "cy")]]
                   (mkWorld [] 4) eq_refl eq_refl _)).
  apply (each_cons _ _ _ _ _ (mkWorld [] 2)); [reflexivity|].
  apply (each_cons _ _ _ _ _ (mkWorld [] 3)); [reflexivity|].
  apply (each_cons _ _ _ _ _ (mkWorld [] 4)); [reflexivity|].
  apply each_nil.
Defined.

(** The first read of [data] serializes [ex_user]; the reads after it return
    the stored mapping, even against a plan whose extractor would leave a
    mark and raise. *)
Lemma data_cached_after_first_result_witness :
  data ex_User_plan ex_self w_init
  = (mkSerializer ex_user false
       (VDict 0 [("name", VStr "ann"); ("age", VInt 0)]),
     mkWorld [] 1,
     inr (VDict 0 [("name", VStr "ann"); ("age", VInt 0)]))
  /\ data [cf_counted]
       (mkSerializer ex_user false
          (VDict 0 [("name", VStr "ann"); ("age", VInt 0)]))
       (mkWorld [] 1)
     = (mkSerializer ex_user false
          (VDict 0 [("name", VStr "ann"); ("age", VInt 0)]),
        mkWorld [] 1,
        inr (VDict 0 [("name", VStr "ann"); ("age", VInt 0)])).
Proof.
  split; [reflexivity|].
  pose proof (data_cached_after_first_result ex_User_plan ex_self w_init
                (mkSerializer ex_user false
                   (VDict 0 [("name", VStr "ann"); ("age", VInt 0)]))
                (mkWorld [] 1)
                (VDict 0 [("name", VStr "ann"); ("age", VInt 0)])
                eq_refl) as (_ & _ & H & _).
  exact (H [cf_counted]).
Defined.

(** C4, as stated, fails.  The source has no [email] and the field is
    required, so the first read of [data] raises and stores nothing; the
    second read runs the extractor again (its mark is on the trace twice, and
    a second output mapping was allocated), so it is not a read that returns
    a cached object and leaves the world as it was. *)
Lemma data_not_cached_after_failure :
  data [cf_counted] ex_self w_init
  = (ex_self, mkWorld ["extract email"] 1, inl (AttributeError "email"))
  /\ data [cf_counted] ex_self (mkWorld ["extract email"] 1)
     = (ex_self, mkWorld ["extract email"; "extract email"] 2,
        inl (AttributeError "email"))
  /\ ~ (exists v,
          data [cf_counted] ex_self (mkWorld ["extract email"] 1)
          = (ex_self, mkWorld ["extract email"] 1, inr v)).
Proof.
  split; [reflexivity|]. split; [reflexivity|].
  intros [v H]. discriminate H.
Qed.


(** The four invalid declarations, on a class body that is a [Meta] alone. *)
Lemma invalid_Meta_raises_at_definition_witness :
  SerializerMeta_new (plain_Field true) "S" (__mro__ Serializer_cls)
    (Meta_only (mkMeta None FieldsNone (Some ["age"])))
  = inl (RuntimeError
           "If you specifiy a Meta class, you need to specify a model")
  /\ (exists msg,
        SerializerMeta_new (plain_Field true) "S" (__mro__ Serializer_cls)
          (Meta_only (mkMeta (Some ex_model) (FieldsStr "__all__")
                             (Some ["age"])))
        = inl (RuntimeError msg))
  /\ SerializerMeta_new (plain_Field true) "S" (__mro__ Serializer_cls)
       (Meta_only (mkMeta (Some ex_model) FieldsNone None))
     = inl (RuntimeError
              "You need to specifiy either `fields` or `exclude` in Meta")
  /\ (exists msg,
        SerializerMeta_new (plain_Field true) "S" (__mro__ Serializer_cls)
          (Meta_only (mkMeta (Some (mkModel None None)) FieldsNone
                             (Some ["age"])))
        = inl (RuntimeError msg)).
Proof.
  split; [|split; [|split]].
  - exact (proj1 (invalid_Meta_raises_at_definition (plain_Field true) "S"
                    (__mro__ Serializer_cls)
                    (Meta_only (mkMeta None FieldsNone (Some ["age"])))
                    (mkMeta None FieldsNone (Some ["age"])) eq_refl)
                 eq_refl).
  - exact (proj1 (proj2 (invalid_Meta_raises_at_definition
                    (plain_Field true) "S" (__mro__ Serializer_cls)
                    (Meta_only (mkMeta (Some ex_model) (FieldsStr "__all__")
                                       (Some ["age"])))
                    (mkMeta (Some ex_model) (FieldsStr "__all__")
                            (Some ["age"])) eq_refl))
                 eq_refl eq_refl).
  - exact (proj1 (proj2 (proj2 (invalid_Meta_raises_at_definition
                    (plain_Field true) "S" (__mro__ Serializer_cls)
                    (Meta_only (mkMeta (Some ex_model) FieldsNone None))
                    (mkMeta (Some ex_model) FieldsNone None) eq_refl)))
                 ex_model eq_refl eq_refl eq_refl).
  - exact (proj1 (proj2 (proj2 (proj2 (invalid_Meta_raises_at_definition
                    (plain_Field true) "S" (__mro__ Serializer_cls)
                    (Meta_only (mkMeta (Some (mkModel None None)) FieldsNone
                                       (Some ["age"])))
                    (mkMeta (Some (mkModel None None)) FieldsNone
                            (Some ["age"])) eq_refl))))
                 (mkModel None None) eq_refl eq_refl).
Defined.

(** * Further properties of the code *)

(** ** Dictionaries, continued *)

Lemma dict_get_app {V} (d e : dict V) k :
  dict_get (d ++ e) k =
  match dict_get d k with
  | Some v => Some v
  | None => dict_get e k
  end.
Proof.
  induction d as [|[k' v'] d IH]; simpl; [reflexivity|].
  destruct (String.eqb k' k); auto.
Qed.

(** Assigning to a key that is not there appends the binding. *)
Lemma dict_set_fresh {V} (d : dict V) k v :
  dict_get d k = None -> dict_set d k v = d ++ [(k, v)].
Proof.
  induction d as [|[k' v'] d IH]; simpl; [reflexivity|].
  destruct (String.eqb k' k); [discriminate|].
  intros H. now rewrite IH.
Qed.

Lemma dict_mem_get {V} (d : dict V) k :
  dict_mem d k = false <-> dict_get d k = None.
Proof. unfold dict_mem. destruct (dict_get d k); split; congruence. Qed.

Lemma in_view_keys n d : in_view n keys d = dict_mem d n.
Proof.
  unfold in_view, keys, dict_mem, dict_keys.
  induction d as [|[k v] d IH]; simpl; [reflexivity|].
  rewrite (String.eqb_sym n k). destruct (String.eqb k n); simpl; auto.
Qed.

Lemma dict_mem_app_other {V} (d : dict V) n v m :
  n <> m -> dict_mem (d ++ [(n, v)]) m = dict_mem d m.
Proof.
  intros Hne. unfold dict_mem. rewrite dict_get_app. simpl.
  destruct (dict_get d m); [reflexivity|].
  destruct (String.eqb n m) eqn:E; [|reflexivity].
  apply String.eqb_eq in E. contradiction.
Qed.

Lemma NoDup_names_filter (p : model_field -> bool) fs :
  NoDup (map name fs) -> NoDup (map name (List.filter p fs)).
Proof.
  induction fs as [|f fs IH]; simpl; intros H; [constructor|].
  apply NoDup_cons in H as [Hf Hfs].
  destruct (p f); simpl; [|now apply IH].
  apply NoDup_cons. split; [|now apply IH].
  intros Hin. apply Hf. apply list_elem_of_In in Hin.
  apply list_elem_of_In. apply in_map_iff in Hin as (g & Hg & Hin).
  apply List.filter_In in Hin as [Hin _]. apply in_map_iff. eauto.
Qed.

(** ** Implicit fields *)

(** The loop of [_update_direct_fields] over objects that have a [name],
    their names being distinct: the mapping grows at its end by the names it
    does not have yet, in the order of the list. *)
Lemma update_direct_loop_fields nf fs d :
  NoDup (map name fs) ->
  update_direct_loop nf (map ItemField fs) keys d
  = inr (d ++ map (fun n => (n, nf))
                  (List.filter (fun n => negb (dict_mem d n)) (map name fs))).
Proof.
  revert d. induction fs as [|f fs IH]; intros d Hnd.
  - simpl. now rewrite app_nil_r.
  - change (map name (f :: fs)) with (name f :: map name fs) in *.
    apply NoDup_cons in Hnd as [Hf Hfs].
    cbn [map update_direct_loop item_name rbind List.filter].
    rewrite in_view_keys.
    destruct (dict_mem d (name f)) eqn:Hm; cbn [negb].
    + now apply IH.
    + apply dict_mem_get in Hm. rewrite (dict_set_fresh _ _ _ Hm).
      rewrite IH by assumption. rewrite <- app_assoc.
      cbn [map app]. f_equal. f_equal. f_equal. f_equal.
      apply List.filter_ext_in. intros m Hin.
      rewrite dict_mem_app_other; [reflexivity|].
      intros <-. apply Hf. now apply list_elem_of_In.
Qed.

(** The loop over any list: what it returns, when it returns, is the mapping
    it was given followed by default descriptors for names of the list that
    the mapping did not have. *)
Lemma update_direct_loop_appends nf items d d' :
  update_direct_loop nf items keys d = inr d' ->
  exists added,
    d' = d ++ map (fun n => (n, nf)) added
    /\ (forall n, In n added ->
          dict_get d n = None
          /\ exists i, In i items /\ item_name i = inr n)
    /\ (forall i n, In i items -> item_name i = inr n ->
          dict_get d n = None -> In n added).
Proof.
  revert d. induction items as [|i items IH]; intros d H; simpl in H.
  - inversion H; subst. exists []. simpl. rewrite app_nil_r.
    split; [reflexivity|]. split; [intros n []|intros i n []].
  - apply rbind_inv in H as (n & Hn & H). rewrite in_view_keys in H.
    destruct (dict_mem d n) eqn:Hm; simpl in H.
    + apply IH in H as (added & -> & Ha & Hc). exists added.
      split; [reflexivity|]. split.
      * intros n' Hin. destruct (Ha n' Hin) as (H1 & i' & Hi' & Hn').
        split; [assumption|]. exists i'. split; [now right|assumption].
      * intros i' n' [<-|Hi'] Hn' Hd.
        -- rewrite Hn in Hn'. injection Hn' as <-.
           apply dict_mem_get in Hd. congruence.
        -- eapply Hc; eauto.
    + apply dict_mem_get in Hm. rewrite (dict_set_fresh _ _ _ Hm) in H.
      apply IH in H as (added & -> & Ha & Hc). exists (n :: added).
      split; [now rewrite <- app_assoc|]. split.
      * intros n' [<-|Hin].
        -- split; [assumption|]. exists i. split; [now left|assumption].
        -- destruct (Ha n' Hin) as (H1 & i' & Hi' & Hn').
           rewrite dict_get_app in H1.
           destruct (dict_get d n') eqn:E; [discriminate|].
           split; [reflexivity|]. exists i'. split; [now right|assumption].
      * intros i' n' [<-|Hi'] Hn' Hd.
        -- rewrite Hn in Hn'. injection Hn' as <-. now left.
        -- destruct (String.eqb n n') eqn:E.
           ++ apply String.eqb_eq in E. now left.
           ++ right. eapply Hc; eauto.
              rewrite dict_get_app, Hd. simpl. now rewrite E.
Qed.

Lemma dict_get_defaults (nf : Field) added n :
  In n added -> dict_get (map (fun n => (n, nf)) added) n = Some nf.
Proof.
  induction added as [|a added IH]; simpl; [intros []|].
  intros [->|H].
  - now rewrite String.eqb_refl.
  - destruct (String.eqb a n); auto.
Qed.

Lemma dict_keys_defaults (nf : Field) added :
  dict_keys (map (fun n => (n, nf)) added) = added.
Proof.
  unfold dict_keys. rewrite List.map_map. simpl. apply List.map_id.
Qed.

(** X1.  Lines 60-65: implicit expansion never touches a field declared on
    the class.  What [_update_direct_fields] returns is the mapping it was
    given, every binding at its place, followed by bindings to the default
    descriptor for names the mapping did not have. *)
Theorem explicit_fields_survive_expansion nf d impl d' :
  _update_direct_fields nf d keys impl = inr d' ->
  (forall k f, dict_get d k = Some f -> dict_get d' k = Some f)
  /\ exists added,
       d' = d ++ added
       /\ Forall (fun kv => snd kv = nf /\ dict_get d (fst kv) = None) added.
Proof.
  unfold _update_direct_fields. intros H.
  apply rbind_inv in H as (items & _ & H).
  apply update_direct_loop_appends in H as (added & -> & Ha & _). split.
  - intros k f Hk. now rewrite dict_get_app, Hk.
  - eexists. split; [reflexivity|].
    apply List.Forall_forall. intros [k f] Hin.
    apply in_map_iff in Hin as (n & Hn & Hin). injection Hn as <- <-.
    simpl. split; [reflexivity|]. now apply Ha.
Qed.

(** X2.  Lines 60-65: every name of the implicit list ends up in the
    mapping, bound to the descriptor the class declares for it, or else to
    the default descriptor; and the mapping gains no other key. *)
Theorem implicit_names_get_default nf d impl items d' :
  iter_fields impl = inr items ->
  _update_direct_fields nf d keys impl = inr d' ->
  (forall i n, In i items -> item_name i = inr n ->
     dict_get d' n = match dict_get d n with
                     | Some f => Some f
                     | None => Some nf
                     end)
  /\ (forall k, In k (dict_keys d') <->
                In k (dict_keys d)
                \/ exists i, In i items /\ item_name i = inr k).
Proof.
  unfold _update_direct_fields. intros Hi H. rewrite Hi in H. simpl in H.
  apply update_direct_loop_appends in H as (added & -> & Ha & Hc). split.
  - intros i n Hin Hn. rewrite dict_get_app.
    destruct (dict_get d n) eqn:E; [reflexivity|].
    apply dict_get_defaults. eapply Hc; eauto.
  - intros k. unfold dict_keys at 1. rewrite List.map_app.
    fold (dict_keys d). fold (dict_keys (map (fun n => (n, nf)) added)).
    rewrite dict_keys_defaults, in_app_iff. split.
    + intros [Hk|Hk]; [now left|]. right. now apply Ha.
    + intros [Hk|(i & Hin & Hn)]; [now left|].
      destruct (dict_get d k) eqn:E.
      * left. apply dict_get_Some_In. eauto.
      * right. eapply Hc; eauto.
Qed.

(** The comprehension of lines 51-54 keeps the fields the test accepts. *)
Lemma filter_bool {A} (p : A -> bool) (l : list A) :
  filter (fun x => p x) l = List.filter p l.
Proof.
  induction l as [|a l IH]; [reflexivity|].
  rewrite filter_cons. simpl. rewrite IH.
  destruct (p a); simpl; reflexivity.
Qed.

Lemma _get_implicit_fields_exclude mf fs excl :
  fields_truthy fs = false ->
  exclude_truthy excl = true ->
  _get_implicit_fields mf fs excl
  = FieldsList (map ItemField
      (List.filter (fun f => negb (in_exclude (name f) excl)) mf)).
Proof.
  intros Hf He. unfold _get_implicit_fields.
  rewrite <- (filter_bool (fun f => negb (in_exclude (name f) excl)) mf).
  destruct fs as [|s|l].
  - simpl. now rewrite He.
  - destruct s; [|simpl in Hf; discriminate]. simpl. now rewrite He.
  - destruct l; [|simpl in Hf; discriminate]. simpl. now rewrite He.
Qed.

Lemma expand_meta_recognised nf m mdl canon d :
  model m = Some mdl ->
  canonical_fields mdl = Some canon ->
  xorb (fields_truthy (fields m)) (exclude_truthy (exclude m)) = true ->
  expand_meta nf m d
  = _update_direct_fields nf d keys
      (_get_implicit_fields canon (fields m) (exclude m)).
Proof.
  intros Hm Hc Hx. unfold expand_meta. rewrite Hm.
  destruct (fields_truthy (fields m)), (exclude_truthy (exclude m));
    try discriminate; simpl;
    unfold canonical_fields in Hc;
    (destruct (_meta mdl); [injection Hc as ->|rewrite Hc]); reflexivity.
Qed.

(** X3.  Lines 46-58 and 99-128: with an exclusion list (and no inclusion
    list) the fields of the class are the declared ones, unchanged, followed
    by the canonical fields of the model, in canonical order, less the
    excluded names and less the names the class declares itself. *)
Theorem exclusion_selects_canonical_minus_excluded
    nf cname tail attrs m mdl canon :
  class_getattr (type_new cname tail attrs) "Meta" = Some (AMeta m) ->
  model m = Some mdl ->
  canonical_fields mdl = Some canon ->
  NoDup (map name canon) ->
  fields_truthy (fields m) = false ->
  exclude_truthy (exclude m) = true ->
  declared_fields nf cname tail attrs
  = inr (collect_direct_fields attrs
         ++ map (fun n => (n, nf))
              (List.filter
                 (fun n => negb (dict_mem (collect_direct_fields attrs) n))
                 (map name
                    (List.filter
                       (fun f => negb (in_exclude (name f) (exclude m)))
                       canon)))).
Proof.
  intros Hmeta Hm Hc Hnd Hf He.
  rewrite (declared_fields_with_Meta nf cname tail attrs m Hmeta).
  rewrite (expand_meta_recognised nf m mdl canon _ Hm Hc)
    by (rewrite Hf, He; reflexivity).
  rewrite _get_implicit_fields_exclude by assumption.
  unfold _update_direct_fields. simpl.
  apply update_direct_loop_fields. now apply NoDup_names_filter.
Qed.

(** X4.  Lines 48-49: with [fields = '__all__'] (and no exclusion list) the
    fields of the class are the declared ones followed by every canonical
    field of the model the class does not declare itself. *)
Theorem all_selects_every_canonical_field nf cname tail attrs m mdl canon :
  class_getattr (type_new cname tail attrs) "Meta" = Some (AMeta m) ->
  model m = Some mdl ->
  canonical_fields mdl = Some canon ->
  NoDup (map name canon) ->
  fields m = FieldsStr "__all__" ->
  exclude_truthy (exclude m) = false ->
  declared_fields nf cname tail attrs
  = inr (collect_direct_fields attrs
         ++ map (fun n => (n, nf))
              (List.filter
                 (fun n => negb (dict_mem (collect_direct_fields attrs) n))
                 (map name canon))).
Proof.
  intros Hmeta Hm Hc Hnd Hf He.
  rewrite (declared_fields_with_Meta nf cname tail attrs m Hmeta).
  rewrite (expand_meta_recognised nf m mdl canon _ Hm Hc)
    by (rewrite Hf, He; reflexivity).
  rewrite Hf. unfold _update_direct_fields. simpl.
  now apply update_direct_loop_fields.
Qed.

(** ** The class namespace *)

Lemma dict_del_keys_In {V} (a : dict V) k0 x :
  In x (dict_keys (dict_del a k0)) -> In x (dict_keys a).
Proof.
  induction a as [|[k v] a IH]; simpl; [tauto|].
  destruct (String.eqb k k0); simpl; tauto.
Qed.

Lemma dict_del_NoDup {V} (a : dict V) k0 :
  NoDup (dict_keys a) -> NoDup (dict_keys (dict_del a k0)).
Proof.
  induction a as [|[k v] a IH]; simpl; intros H; [assumption|].
  apply NoDup_cons in H as [Hk Ha].
  destruct (String.eqb k k0); simpl; [assumption|].
  apply NoDup_cons. split; [|now apply IH].
  intros Hin. apply Hk. apply list_elem_of_In.
  apply list_elem_of_In in Hin. eapply dict_del_keys_In; eauto.
Qed.

(** [del d[k0]] on a dictionary: [k0] is gone, the rest is as it was. *)
Lemma dict_get_del {V} (a : dict V) k0 k :
  NoDup (dict_keys a) ->
  dict_get (dict_del a k0) k =
  if String.eqb k0 k then None else dict_get a k.
Proof.
  induction a as [|[k' v] a IH]; simpl; intros H.
  - now destruct (String.eqb k0 k).
  - apply NoDup_cons in H as [Hk Ha].
    destruct (String.eqb k' k0) eqn:E0.
    + apply String.eqb_eq in E0. subst k'.
      destruct (String.eqb k0 k) eqn:E; [|reflexivity].
      apply String.eqb_eq in E. subst k. apply dict_get_None.
      intros Hin. apply Hk. now apply list_elem_of_In.
    + simpl. destruct (String.eqb k' k) eqn:E.
      * apply String.eqb_eq in E. subst k'.
        rewrite (String.eqb_sym k0 k), E0. reflexivity.
      * now apply IH.
Qed.

Lemma remove_keys_get {V} (ks : list string) (a : dict V) k :
  NoDup (dict_keys a) ->
  dict_get (fold_left (fun a k => dict_del a k) ks a) k =
  if existsb (String.eqb k) ks then None else dict_get a k.
Proof.
  revert a. induction ks as [|k0 ks IH]; intros a H; simpl; [reflexivity|].
  rewrite IH by now apply dict_del_NoDup.
  rewrite dict_get_del by assumption. rewrite (String.eqb_sym k k0).
  destruct (String.eqb k0 k); simpl; [now destruct (existsb _ ks)|].
  reflexivity.
Qed.

(** The descriptors of a class body, in the order of the body. *)
Lemma collect_direct_fields_flat attrs :
  NoDup (dict_keys attrs) ->
  collect_direct_fields attrs
  = flat_map (fun kv => match snd kv with
                        | AField f => [(fst kv, f)]
                        | _ => []
                        end) attrs.
Proof.
  unfold collect_direct_fields.
  assert (G : forall (l : dict class_attr) (d : dict Field),
             NoDup (dict_keys l) ->
             (forall k, In k (dict_keys l) -> dict_get d k = None) ->
             fold_left (fun d kv => match snd kv with
                                    | AField f => dict_set d (fst kv) f
                                    | _ => d
                                    end) l d
             = d ++ flat_map (fun kv => match snd kv with
                                        | AField f => [(fst kv, f)]
                                        | _ => []
                                        end) l).
  { induction l as [|[k a] l IH]; intros d Hnd Hd; simpl.
    - now rewrite app_nil_r.
    - change (dict_keys ((k, a) :: l)) with (k :: dict_keys l) in *.
      apply NoDup_cons in Hnd as [Hk Hl].
      assert (Hd' : forall k', In k' (dict_keys l) -> dict_get d k' = None)
        by (intros k' Hk'; apply Hd; now right).
      destruct a; try (now apply IH).
      rewrite (dict_set_fresh d k f) by (apply Hd; now left).
      rewrite IH; [now rewrite <- app_assoc|assumption|].
      intros k' Hk'. rewrite dict_get_app, (Hd' k' Hk'). simpl.
      destruct (String.eqb k k') eqn:E; [|reflexivity].
      apply String.eqb_eq in E. subst k'. exfalso. apply Hk.
      now apply list_elem_of_In. }
  intros H. rewrite G; auto.
Qed.

Lemma collect_direct_fields_get attrs k :
  NoDup (dict_keys attrs) ->
  dict_get (collect_direct_fields attrs) k =
  match dict_get attrs k with
  | Some (AField f) => Some f
  | _ => None
  end.
Proof.
  intros H. rewrite collect_direct_fields_flat by assumption.
  induction attrs as [|[k' a] attrs IH]; simpl; [reflexivity|].
  change (dict_keys ((k', a) :: attrs)) with (k' :: dict_keys attrs) in H.
  apply NoDup_cons in H as [Hk Ha].
  rewrite dict_get_app, (IH Ha).
  destruct (String.eqb k' k) eqn:E.
  - apply String.eqb_eq in E. subst k'.
    assert (Hn : dict_get attrs k = None).
    { apply dict_get_None. intros Hin. apply Hk. now apply list_elem_of_In. }
    rewrite Hn. destruct a; simpl; try reflexivity.
    now rewrite String.eqb_refl.
  - destruct a; simpl; try reflexivity. now rewrite E.
Qed.

Lemma SerializerMeta_new_namespace nf cname tail attrs T :
  SerializerMeta_new nf cname tail attrs = inr T ->
  exists fm cf,
    cls_dict T
    = dict_set (dict_set (remove_fields attrs (collect_direct_fields attrs))
                         "_field_map" (AFieldMap fm))
               "_compiled_fields" (ACompiledFields cf).
Proof.
  unfold SerializerMeta_new. intros H.
  apply rbind_inv in H as (direct & _ & H).
  apply rbind_inv in H as (fm & _ & H).
  apply rbind_inv in H as (cf & _ & H).
  injection H as <-. simpl. eauto.
Qed.

(** X5.  Lines 72-76: the descriptors are taken out of the class namespace.
    In the class the metaclass returns, a name the body bound to a [Field] is
    no longer an attribute of the class itself, and every other name of the
    body is bound as the body bound it ([_field_map] and [_compiled_fields],
    which lines 137-138 assign, apart). *)
Theorem descriptors_leave_the_namespace nf cname tail attrs T :
  SerializerMeta_new nf cname tail attrs = inr T ->
  NoDup (dict_keys attrs) ->
  forall k,
    k <> "_field_map" -> k <> "_compiled_fields" ->
    dict_get (cls_dict T) k =
    match dict_get attrs k with
    | Some (AField _) => None
    | other => other
    end.
Proof.
  intros H Hnd k H1 H2.
  apply SerializerMeta_new_namespace in H as (fm & cf & ->).
  rewrite dict_get_set_ne by congruence.
  rewrite dict_get_set_ne by congruence.
  unfold remove_fields. rewrite remove_keys_get by assumption.
  assert (E : existsb (String.eqb k) (dict_keys (collect_direct_fields attrs))
              = dict_mem (collect_direct_fields attrs) k).
  { rewrite <- in_view_keys. reflexivity. }
  rewrite E. unfold dict_mem.
  rewrite collect_direct_fields_get by assumption.
  destruct (dict_get attrs k) as [[]|]; reflexivity.
Qed.

(** ** The field map and the compiled plan *)

Lemma merge_bases_NoDup classes acc fm :
  merge_bases classes acc = inr fm ->
  NoDup (dict_keys acc) -> NoDup (dict_keys fm).
Proof.
  revert acc. induction classes as [|c rest IH]; intros acc H Hnd; simpl in H.
  - inversion H; subst. assumption.
  - destruct (issubclass_SerializerBase c); [|eauto].
    apply rbind_inv in H as (m & _ & H).
    eapply IH; eauto. now apply dict_update_NoDup.
Qed.

Lemma dict_mem_set {V} (d : dict V) k v m :
  dict_mem (dict_set d k v) m = String.eqb k m || dict_mem d m.
Proof.
  unfold dict_mem. rewrite dict_get_set.
  destruct (String.eqb k m); [reflexivity|]. reflexivity.
Qed.

(** [d.update(o)] keeps the keys of [d] where they are and appends the keys
    of [o] that [d] does not have, in the order of [o]. *)
Lemma dict_keys_update {V} (d o : dict V) :
  NoDup (dict_keys o) ->
  dict_keys (dict_update d o)
  = dict_keys d
    ++ List.filter (fun k => negb (dict_mem d k)) (dict_keys o).
Proof.
  unfold dict_update. revert d.
  induction o as [|[k v] o IH]; intros d H.
  - simpl. now rewrite app_nil_r.
  - change (dict_keys ((k, v) :: o)) with (k :: dict_keys o) in *.
    apply NoDup_cons in H as [Hk Ho].
    cbn [fold_left fst snd List.filter]. rewrite IH by assumption.
    assert (Hf : List.filter (fun m => negb (dict_mem (dict_set d k v) m))
                   (dict_keys o)
                 = List.filter (fun m => negb (dict_mem d m)) (dict_keys o)).
    { apply List.filter_ext_in. intros m Hm. rewrite dict_mem_set.
      destruct (String.eqb k m) eqn:E; [|reflexivity].
      apply String.eqb_eq in E. subst m. exfalso. apply Hk.
      now apply list_elem_of_In. }
    rewrite Hf. destruct (dict_mem d k) eqn:Hm; cbn [negb].
    + rewrite dict_keys_set_old; [reflexivity|].
      apply dict_get_Some_In. unfold dict_mem in Hm.
      destruct (dict_get d k); [eauto|discriminate].
    + rewrite dict_keys_set_new by now apply dict_mem_false.
      now rewrite <- app_assoc.
Qed.

(** X6.  Lines 29-37 and 134-138: the field map of a class the metaclass
    returns is a dictionary in good standing (no name twice), whatever the
    ancestors' maps are, and the compiled plan has as many entries. *)
Theorem field_map_keys_distinct nf cname tail attrs T :
  SerializerMeta_new nf cname tail attrs = inr T ->
  NoDup (dict_keys (_field_map T))
  /\ length (_compiled_fields T) = length (dict_keys (_field_map T)).
Proof.
  intros H. apply SerializerMeta_new_inv in H as (direct & _ & Hf & Hc & _).
  split.
  - unfold _get_fields in Hf. apply rbind_inv in Hf as (base & Hb & Hf).
    injection Hf as <-. apply dict_update_NoDup.
    eapply merge_bases_NoDup; eauto. constructor.
  - unfold _compile_fields in Hc. apply rmapM_length in Hc.
    unfold dict_keys. now rewrite length_map.
Qed.

Lemma _compile_field_to_tuple_inv f n cls cf :
  _compile_field_to_tuple f n cls = inr cf ->
  cf_name cf = or_name (label f) n
  /\ cf_call cf = call f
  /\ cf_required cf = required f
  /\ cf_pass_self cf = getter_takes_serializer f
  /\ cf_to_value cf = (if _is_to_value_overridden f
                       then Some (field_to_value f) else None)
  /\ match as_getter f n (class_method cls) with
     | Some g => cf_getter cf = g
     | None => default_getter cls (or_name (attr f) n) = inr (cf_getter cf)
     end.
Proof.
  unfold _compile_field_to_tuple. intros H.
  apply rbind_inv in H as (g & Hg & H). injection H as <-. simpl.
  repeat split. destruct (as_getter f n (class_method cls)).
  - now injection Hg.
  - assumption.
Qed.

(** X8.  Lines 10-24 and 39-44: the compiled plan follows the field map
    entry by entry, in the same order.  The entry for the name [n] and the
    descriptor [f] has the output name [f.label or n], the flags of [f], the
    transform of [f] only when [f] overrides it, and as extractor the custom
    one of [f] when there is one, the class's [default_getter(f.attr or n)]
    otherwise. *)
Theorem compiled_plan_follows_field_map fm cls cfs :
  _compile_fields fm cls = inr cfs ->
  Forall2 (fun kv cf =>
             cf_name cf = or_name (label (snd kv)) (fst kv)
             /\ cf_call cf = call (snd kv)
             /\ cf_required cf = required (snd kv)
             /\ cf_pass_self cf = getter_takes_serializer (snd kv)
             /\ cf_to_value cf = (if _is_to_value_overridden (snd kv)
                                  then Some (field_to_value (snd kv))
                                  else None)
             /\ match as_getter (snd kv) (fst kv) (class_method cls) with
                | Some g => cf_getter cf = g
                | None => default_getter cls
                            (or_name (attr (snd kv)) (fst kv))
                          = inr (cf_getter cf)
                end)
          fm cfs.
Proof.
  unfold _compile_fields. revert cfs.
  induction fm as [|[n f] fm IH]; intros cfs H; simpl in H.
  - injection H as <-. constructor.
  - apply rbind_inv in H as (cf & Hcf & H).
    apply rbind_inv in H as (rest & Hrest & H). injection H as <-.
    constructor; [|now apply IH].
    now apply _compile_field_to_tuple_inv.
Qed.

(** ** Execution, continued *)

Lemma dict_set_keys_In {V} (d : dict V) n y k :
  In k (dict_keys (dict_set d n y)) -> In k (dict_keys d) \/ k = n.
Proof.
  destruct (in_dec string_dec n (dict_keys d)) as [H|H].
  - rewrite dict_keys_set_old by assumption. now left.
  - rewrite dict_keys_set_new by assumption. rewrite in_app_iff. simpl.
    intros [Hk|[<-|[]]]; auto.
Qed.

Lemma dict_set_length {V} (d : dict V) n y :
  length (dict_set d n y) <= S (length d).
Proof.
  induction d as [|[k v] d IH]; simpl; [lia|].
  destruct (String.eqb k n); simpl; lia.
Qed.

Lemma serialize_loop_keys self inst fs v w w' d :
  serialize_loop self inst fs v w = (w', inr d) ->
  NoDup (dict_keys v) ->
  NoDup (dict_keys d)
  /\ (forall k, In k (dict_keys d) ->
        In k (dict_keys v) \/ exists f, In f fs /\ cf_name f = k)
  /\ length d <= length v + length fs.
Proof.
  revert v w. induction fs as [|f fs IH]; intros v w H Hnd; simpl in H.
  - inversion H; subst. repeat split; auto. simpl. lia.
  - apply bind_inv_ok in H as (w1 & v1 & Hf & Hl).
    apply serialize_field_inv in Hf.
    assert (Hv1 : NoDup (dict_keys v1)
                  /\ (forall k, In k (dict_keys v1) ->
                                In k (dict_keys v) \/ k = cf_name f)
                  /\ length v1 <= S (length v)).
    { destruct Hf as [->|[y ->]].
      - repeat split; auto.
      - split; [now apply dict_set_NoDup|]. split.
        + intros k. apply dict_set_keys_In.
        + apply dict_set_length. }
    destruct Hv1 as (N1 & K1 & L1).
    destruct (IH _ _ Hl N1) as (N & K & L). split; [assumption|]. split.
    + intros k Hk. destruct (K k Hk) as [Hk1|(g & Hg & <-)].
      * destruct (K1 k Hk1) as [Hv| ->]; [now left|].
        right. exists f. split; [now left|reflexivity].
      * right. exists g. split; [now right|reflexivity].
    + simpl. lia.
Qed.

(** X10.  Lines 181-200: whatever the extractors do, what [_serialize]
    returns is a mapping allocated by this call, whose keys are output names
    of the plan, each once; so it has at most as many keys as the plan has
    fields. *)
Theorem output_keys_are_plan_names self inst cfs w w' out :
  _serialize self inst cfs w = (w', inr out) ->
  exists d,
    out = VDict (next_addr w) d
    /\ NoDup (dict_keys d)
    /\ (forall k, In k (dict_keys d) -> exists f, In f cfs /\ cf_name f = k)
    /\ length d <= length cfs.
Proof.
  rewrite _serialize_eq.
  destruct (serialize_loop self inst cfs [] (after_alloc w))
    as [w1 [e|d]] eqn:E; intros H; inversion H; subst.
  exists d. split; [reflexivity|].
  destruct (serialize_loop_keys _ _ _ _ _ _ _ E) as (N & K & L);
    [constructor|].
  split; [assumption|]. split; [|simpl in L; lia].
  intros k Hk. destruct (K k Hk) as [[]|Hf]. assumption.
Qed.

(** X11.  Lines 186-197: the [try] covers the call of the extractor and
    nothing else, and catches [KeyError] and [AttributeError] only.  For a
    field read with the one-argument extractor, required or not: any other
    exception of the extractor leaves [_serialize]; and so does every
    exception of the invocation or of the transform, a [KeyError] or
    [AttributeError] included. *)
Theorem only_lookup_errors_of_the_extractor_are_caught
    self inst pre f post w0 w1 v :
  cf_pass_self f = false ->
  serialize_loop self inst pre [] (after_alloc w0) = (w1, inr v) ->
  (forall w2 e,
     call_getter1 (cf_getter f) inst w1 = (w2, inl e) ->
     is_missing e = false ->
     _serialize self inst (pre ++ f :: post) w0 = (w2, inl e))
  /\ (forall w2 x w3 e,
        call_getter1 (cf_getter f) inst w1 = (w2, inr x) ->
        cf_required f || negb (is_None x) = true ->
        invoked_transformed f x w2 = (w3, inl e) ->
        _serialize self inst (pre ++ f :: post) w0 = (w3, inl e)).
Proof.
  intros Hp Hpre. split.
  - intros w2 e Hg He. eapply _serialize_raise_at; eauto.
    now apply serialize_field_other_exception.
  - intros w2 x w3 e Hg Hc Hi. eapply _serialize_raise_at; eauto.
    rewrite (serialize_field_present _ _ _ _ _ _ _ Hp Hg Hc).
    now rewrite (bind_raise _ _ _ _ _ Hi).
Qed.

(** ** Batch mode, continued *)

Lemma py_iter_pure inst w w1 r :
  py_iter inst w = (w1, r) -> w1 = w.
Proof. destruct inst; simpl; intros H; inversion H; reflexivity. Qed.

Lemma mapM_stops self cfs os1 o os2 w ds w1 w2 e :
  serialize_each self cfs os1 w ds w1 ->
  _serialize self o cfs w1 = (w2, inl e) ->
  mapM (fun o => _serialize self o cfs) (os1 ++ o :: os2) w = (w2, inl e).
Proof.
  intros H Ho. induction H as [w|o' os w w' d ds w'' Ho' _ IH]; simpl.
  - now rewrite (bind_raise _ _ _ _ _ Ho).
  - rewrite (bind_ok _ _ _ _ _ Ho'). now rewrite (bind_raise _ _ _ _ _ (IH Ho)).
Qed.

(** X12.  Lines 204-206: a batch stops at the first element that fails.
    When the elements before it serialize and it raises, [to_value] raises
    that exception in the world that element left: the elements after it are
    not touched and no list is returned. *)
Theorem batch_stops_at_first_failure cfs self inst w os1 o os2 ds w1 w2 e :
  many self = true ->
  py_iter inst w = (w, inr (os1 ++ o :: os2)) ->
  serialize_each self cfs os1 (after_alloc w) ds w1 ->
  _serialize self o cfs w1 = (w2, inl e) ->
  to_value cfs self inst w = (w2, inl e).
Proof.
  intros Hm Hi He Ho. unfold to_value. rewrite Hm.
  rewrite (bind_ok _ _ _ _ _ Hi). erewrite bind_ok by reflexivity.
  now rewrite (bind_raise _ _ _ _ _ (mapM_stops _ _ _ _ _ _ _ _ _ _ He Ho)).
Qed.

Lemma serialize_each_mappings self cfs os w ds w' :
  serialize_each self cfs os w ds w' ->
  Forall (fun d => exists a items, d = VDict a items) ds.
Proof.
  induction 1 as [|o os w w1 d ds w2 Ho _ IH]; constructor; [|assumption].
  rewrite _serialize_eq in Ho.
  destruct (serialize_loop self o cfs [] (after_alloc w)) as [w3 [e|x]];
    inversion Ho. eauto.
Qed.

(** X13.  Lines 204-206: whenever [to_value] returns in batch mode, what it
    returns is a list allocated by this call that holds one mapping for each
    element the collection yielded, the mapping of each element at the
    position of the element. *)
Theorem batch_result_is_one_mapping_per_element cfs self inst w w' v :
  many self = true ->
  to_value cfs self inst w = (w', inr v) ->
  exists os ds,
    py_iter inst w = (w, inr os)
    /\ v = VList (next_addr w) ds
    /\ serialize_each self cfs os (after_alloc w) ds w'
    /\ length ds = length os
    /\ Forall (fun d => exists a items, d = VDict a items) ds.
Proof.
  intros Hm H. unfold to_value in H. rewrite Hm in H.
  apply bind_inv_ok in H as (w1 & os & Hi & H).
  pose proof (py_iter_pure _ _ _ _ Hi) as ->.
  apply bind_inv_ok in H as (w2 & a & Ha & H).
  unfold alloc in Ha. injection Ha as <- <-.
  apply bind_inv_ok in H as (w3 & ds & Hds & H).
  injection H as <- <-. apply mapM_serialize_each_inv in Hds.
  exists os, ds. repeat split; auto.
  - eapply serialize_each_length; eauto.
  - eapply serialize_each_mappings; eauto.
Qed.

(** ** The serializer instance *)

Lemma serialize_field_ignores_self self self' inst f v w :
  cf_pass_self f = false ->
  serialize_field self inst f v w = serialize_field self' inst f v w.
Proof. intros H. unfold serialize_field. now rewrite H. Qed.

Lemma serialize_loop_ignores_self self self' inst cfs v w :
  Forall (fun f => cf_pass_self f = false) cfs ->
  serialize_loop self inst cfs v w = serialize_loop self' inst cfs v w.
Proof.
  intros H. revert v w. induction H as [|f cfs Hf _ IH]; intros v w; simpl.
  - reflexivity.
  - unfold bind. rewrite (serialize_field_ignores_self self self') by exact Hf.
    destruct (serialize_field self' inst f v w) as [w1 [e|v1]]; auto.
Qed.

Lemma _serialize_ignores_self self self' inst cfs w :
  Forall (fun f => cf_pass_self f = false) cfs ->
  _serialize self inst cfs w = _serialize self' inst cfs w.
Proof.
  intros H. rewrite !_serialize_eq.
  now rewrite (serialize_loop_ignores_self self self').
Qed.

Lemma mapM_ignores_self self self' cfs os w :
  Forall (fun f => cf_pass_self f = false) cfs ->
  mapM (fun o => _serialize self o cfs) os w
  = mapM (fun o => _serialize self' o cfs) os w.
Proof.
  intros H. revert w. induction os as [|o os IH]; intros w; simpl.
  - reflexivity.
  - unfold bind at 1 3. rewrite (_serialize_ignores_self self self') by exact H.
    destruct (_serialize self' o cfs w) as [w1 [e|d]]; [reflexivity|].
    unfold bind. rewrite IH. reflexivity.
Qed.

(** X14.  Lines 180-207: the serializer instance reaches the output only
    through its [many] flag and through extractors that take the serializer.
    With a plan that has none of those, two serializers with the same
    [many] give the same result on the same input, whatever their
    [instance] and whatever they have cached in [_data]. *)
Theorem plan_without_pass_self_ignores_the_serializer
    cfs self self' inst w :
  Forall (fun f => cf_pass_self f = false) cfs ->
  many self = many self' ->
  to_value cfs self inst w = to_value cfs self' inst w.
Proof.
  intros H Hm. unfold to_value. rewrite <- Hm. destruct (many self).
  - unfold bind at 1 4. destruct (py_iter inst w) as [w1 [e|os]];
      [reflexivity|].
    unfold bind at 1 3. destruct (alloc w1) as [w2 [e|a]]; [reflexivity|].
    unfold bind. rewrite (mapM_ignores_self self self') by exact H.
    reflexivity.
  - now apply _serialize_ignores_self.
Qed.

(** ** Key lookup: [DictSerializer] *)

Lemma serialize_field_item self a d k req v w x :
  dict_get d k = Some x ->
  serialize_field self (VDict a d) (cf_item k req) v w
  = (w, inr (dict_set v k x)).
Proof.
  intros H. unfold serialize_field, bind, catch_missing. simpl. rewrite H.
  unfold ret. destruct (req || negb (is_None x)); reflexivity.
Qed.

Lemma serialize_loop_items self a d req kvs v w :
  NoDup (dict_keys v ++ dict_keys kvs) ->
  (forall k x, In (k, x) kvs -> dict_get d k = Some x) ->
  serialize_loop self (VDict a d)
    (map (fun kv => cf_item (fst kv) req) kvs) v w
  = (w, inr (v ++ kvs)).
Proof.
  revert v. induction kvs as [|[k x] kvs IH]; intros v Hnd Hd; simpl.
  - now rewrite app_nil_r.
  - unfold bind. rewrite (serialize_field_item _ _ _ _ _ _ _ x)
      by (apply Hd; now left).
    assert (Hk : dict_get v k = None).
    { apply dict_get_None. intros Hin.
      apply NoDup_app in Hnd as (_ & Hdis & _).
      apply (Hdis k); [now apply list_elem_of_In|].
      apply list_elem_of_In. now left. }
    rewrite (dict_set_fresh _ _ _ Hk). rewrite IH.
    + now rewrite <- app_assoc.
    + unfold dict_keys in *. rewrite List.map_app, <- app_assoc. exact Hnd.
    + intros k' x' Hin. apply Hd. now right.
Qed.

(** X15.  Lines 180-200 with the extractors of line 238: a plan of plain
    key-lookup fields projects the source mapping.  For distinct names that
    are keys of the source, the output binds each name to the value the
    source has for it, in the order of the plan, and the world is left as it
    was but for the allocation of the output; taking all the keys of
    the source gives back its items. *)
Theorem key_lookup_plan_projects_the_source self a d req kvs w :
  NoDup (dict_keys kvs) ->
  (forall k x, In (k, x) kvs -> dict_get d k = Some x) ->
  _serialize self (VDict a d) (map (fun kv => cf_item (fst kv) req) kvs) w
  = (after_alloc w, inr (VDict (next_addr w) kvs)).
Proof.
  intros Hnd Hd. rewrite _serialize_eq.
  rewrite serialize_loop_items; [reflexivity|exact Hnd|exact Hd].
Qed.

Lemma dict_get_of_item {V} (d : dict V) k x :
  NoDup (dict_keys d) -> In (k, x) d -> dict_get d k = Some x.
Proof.
  induction d as [|[k' v] d IH]; simpl; intros Hnd Hin; [contradiction|].
  apply NoDup_cons in Hnd as [Hk Hd]. destruct Hin as [E|Hin].
  - injection E as -> ->. now rewrite String.eqb_refl.
  - destruct (String.eqb k' k) eqn:E; [|now apply IH].
    apply String.eqb_eq in E. subst k'. exfalso. apply Hk.
    apply list_elem_of_In. apply in_map_iff. exists (k, x). auto.
Qed.

Lemma remove_fields_keys_In attrs direct x :
  In x (dict_keys (remove_fields attrs direct)) -> In x (dict_keys attrs).
Proof.
  unfold remove_fields. generalize (dict_keys direct) as ks. intros ks.
  revert attrs. induction ks as [|k ks IH]; intros attrs; simpl; [tauto|].
  intros H. apply IH in H. eapply dict_del_keys_In; eauto.
Qed.

Lemma type_new_inherits cname tail attrs a :
  dict_get attrs a = None ->
  class_getattr (type_new cname tail attrs) a = lookup_mro tail a.
Proof.
  intros H. unfold class_getattr, type_new. simpl.
  assert (Hn : dict_get (remove_fields attrs (collect_direct_fields attrs)) a
               = None).
  { apply dict_get_None. intros Hin. apply remove_fields_keys_In in Hin.
    apply dict_get_None in H. contradiction. }
  now rewrite Hn.
Qed.

(** X16.  Lines 167 and 238: the default extractor follows the base class.
    A class whose body does not bind [default_getter] reads attributes when
    it derives from [Serializer] and keys when it derives from
    [DictSerializer]; in both cases the name looked up is [f.attr or n],
    and the output name is [f.label or n]. *)
Theorem default_extractor_follows_the_base cname attrs f n :
  dict_get attrs "default_getter" = None ->
  (forall cls_methods, as_getter f n cls_methods = None) ->
  (exists cf,
     _compile_field_to_tuple f n
       (type_new cname (__mro__ Serializer_cls) attrs) = inr cf
     /\ cf_getter cf = Getter1 (attrgetter (or_name (attr f) n))
     /\ cf_name cf = or_name (label f) n)
  /\ (exists cf,
        _compile_field_to_tuple f n
          (type_new cname (__mro__ DictSerializer_cls) attrs) = inr cf
        /\ cf_getter cf = Getter1 (itemgetter (or_name (attr f) n))
        /\ cf_name cf = or_name (label f) n).
Proof.
  intros Hattrs Hg. split; eexists;
    (split;
      [unfold _compile_field_to_tuple, default_getter;
       rewrite Hg, (type_new_inherits _ _ _ _ Hattrs); reflexivity
      |split; reflexivity]).
Qed.

(** ** From the class body to the output *)

Lemma remove_fields_get attrs k :
  NoDup (dict_keys attrs) ->
  dict_get (remove_fields attrs (collect_direct_fields attrs)) k =
  match dict_get attrs k with
  | Some (AField _) => None
  | other => other
  end.
Proof.
  intros Hnd. unfold remove_fields. rewrite remove_keys_get by assumption.
  assert (E : existsb (String.eqb k) (dict_keys (collect_direct_fields attrs))
              = dict_mem (collect_direct_fields attrs) k).
  { rewrite <- in_view_keys. reflexivity. }
  rewrite E. unfold dict_mem.
  rewrite collect_direct_fields_get by assumption.
  destruct (dict_get attrs k) as [[]|]; reflexivity.
Qed.

(** Attribute lookup on the class of line 78: a name the body binds to
    something that is not a descriptor is found in the body, any other name
    is inherited. *)
Lemma type_new_getattr cname tail attrs a :
  NoDup (dict_keys attrs) ->
  class_getattr (type_new cname tail attrs) a =
  match dict_get attrs a with
  | Some (AField _) | None => lookup_mro tail a
  | Some other => Some other
  end.
Proof.
  intros Hnd. unfold class_getattr, type_new. simpl.
  rewrite remove_fields_get by assumption.
  destruct (dict_get attrs a) as [[]|]; reflexivity.
Qed.

(** X17.  Lines 69-74 and 82-83: without a [Meta] in reach (or with one that
    is falsy) the metaclass raises no configuration error, and the fields
    declared on the class are the descriptors of the class body, in the
    order of the body. *)
Theorem declared_fields_without_Meta nf cname tail attrs :
  NoDup (dict_keys attrs) ->
  (class_getattr (type_new cname tail attrs) "Meta" = None
   \/ exists v, class_getattr (type_new cname tail attrs) "Meta"
                = Some (AValue v) /\ truthy v = false) ->
  declared_fields nf cname tail attrs
  = inr (flat_map (fun kv => match snd kv with
                             | AField f => [(fst kv, f)]
                             | _ => []
                             end) attrs).
Proof.
  intros Hnd H. rewrite <- collect_direct_fields_flat by assumption.
  unfold declared_fields. destruct H as [->|(v & -> & Hv)].
  - reflexivity.
  - simpl. now rewrite Hv.
Qed.

Lemma dict_update_fresh {V} (d o : dict V) :
  NoDup (dict_keys o) ->
  (forall k, In k (dict_keys o) -> dict_get d k = None) ->
  dict_update d o = d ++ o.
Proof.
  unfold dict_update. revert d.
  induction o as [|[k v] o IH]; intros d Hnd Hd.
  - simpl. now rewrite app_nil_r.
  - change (dict_keys ((k, v) :: o)) with (k :: dict_keys o) in *.
    apply NoDup_cons in Hnd as [Hk Ho]. cbn [fold_left fst snd].
    rewrite (dict_set_fresh d k v) by (apply Hd; now left).
    rewrite IH; [now rewrite <- app_assoc|assumption|].
    intros k' Hk'. rewrite dict_get_app, (Hd k') by now right. simpl.
    destruct (String.eqb k k') eqn:E; [|reflexivity].
    apply String.eqb_eq in E. subst k'. exfalso. apply Hk.
    now apply list_elem_of_In.
Qed.

Lemma plain_attrs_keys req ks :
  dict_keys (map (fun k => (k, AField (plain_Field req))) ks) = ks.
Proof.
  unfold dict_keys. rewrite List.map_map. simpl. apply List.map_id.
Qed.

Lemma plain_attrs_get req ks a :
  dict_get (map (fun k => (k, AField (plain_Field req))) ks) a = None
  \/ dict_get (map (fun k => (k, AField (plain_Field req))) ks) a
     = Some (AField (plain_Field req)).
Proof.
  induction ks as [|k l IH]; simpl; [now left|].
  destruct (String.eqb k a); [now right|exact IH].
Qed.

(** A class body of plain fields leaves nothing in the namespace: every
    attribute of the class is inherited. *)
Lemma plain_real_getattr cname tail req ks a :
  NoDup ks ->
  class_getattr
    (type_new cname tail (map (fun k => (k, AField (plain_Field req))) ks)) a
  = lookup_mro tail a.
Proof.
  intros Hks. rewrite type_new_getattr by now rewrite plain_attrs_keys.
  destruct (plain_attrs_get req ks a) as [->| ->]; reflexivity.
Qed.

Lemma plain_collect req ks :
  NoDup ks ->
  collect_direct_fields (map (fun k => (k, AField (plain_Field req))) ks)
  = map (fun k => (k, plain_Field req)) ks.
Proof.
  intros Hks.
  rewrite collect_direct_fields_flat by now rewrite plain_attrs_keys.
  clear Hks. induction ks as [|k l IH]; simpl; [reflexivity|]. now rewrite IH.
Qed.

Lemma plain_compile cname req ks (l : list string) :
  NoDup ks ->
  _compile_fields (map (fun k => (k, plain_Field req)) l)
    (type_new cname (__mro__ DictSerializer_cls)
       (map (fun k => (k, AField (plain_Field req))) ks))
  = inr (map (fun k => cf_item k req) l).
Proof.
  intros Hks. unfold _compile_fields.
  induction l as [|k l IH]; [reflexivity|].
  cbn [map rmapM fst snd].
  assert (E : _compile_field_to_tuple (plain_Field req) k
                (type_new cname (__mro__ DictSerializer_cls)
                   (map (fun k => (k, AField (plain_Field req))) ks))
              = inr (cf_item k req)).
  { unfold _compile_field_to_tuple, default_getter.
    rewrite plain_real_getattr by assumption. reflexivity. }
  rewrite E. cbn [rbind]. rewrite IH. reflexivity.
Qed.

(** X18.  Lines 67-139 and 180-238 together: a class deriving from
    [DictSerializer] whose body is a list of plain fields with distinct
    names compiles, without any condition on the names, to the plan of
    key lookups of those names in the order of the body; and reading [data]
    from a fresh serializer over a mapping that has those keys returns the
    mapping of the names to the values the source has for them. *)
Theorem plain_DictSerializer_schema_end_to_end nf cname req ks a d kvs w :
  NoDup ks ->
  map fst kvs = ks ->
  (forall k x, In (k, x) kvs -> dict_get d k = Some x) ->
  exists T,
    SerializerMeta_new nf cname (__mro__ DictSerializer_cls)
      (map (fun k => (k, AField (plain_Field req))) ks) = inr T
    /\ dict_keys (_field_map T) = ks
    /\ _compiled_fields T = map (fun k => cf_item k req) ks
    /\ data (_compiled_fields T) (mkSerializer (VDict a d) false VNone) w
       = (mkSerializer (VDict a d) false (VDict (next_addr w) kvs),
          after_alloc w, inr (VDict (next_addr w) kvs)).
Proof.
  intros Hks Hkvs Hd.
  set (attrs := map (fun k => (k, AField (plain_Field req))) ks).
  set (real := type_new cname (__mro__ DictSerializer_cls) attrs).
  assert (Hdecl : declared_fields nf cname (__mro__ DictSerializer_cls) attrs
                  = inr (map (fun k => (k, plain_Field req)) ks)).
  { unfold declared_fields, attrs.
    rewrite plain_real_getattr by assumption.
    rewrite plain_collect by assumption. reflexivity. }
  assert (Hget : _get_fields (map (fun k => (k, plain_Field req)) ks) real
                 = inr (map (fun k => (k, plain_Field req)) ks)).
  { rewrite _get_fields_no_inherited.
    - rewrite dict_update_fresh; [reflexivity| |intros; reflexivity].
      unfold dict_keys. rewrite List.map_map. simpl.
      now rewrite List.map_id.
    - change (__mro__ real) with (real :: __mro__ DictSerializer_cls).
      constructor.
      + intros _. unfold get_field_map, real, attrs.
        rewrite plain_real_getattr by assumption. reflexivity.
      + repeat constructor; intros H;
          first [discriminate H|reflexivity]. }
  eexists. split; [|split; [|split]].
  - unfold SerializerMeta_new. rewrite Hdecl. cbn [rbind]. fold real.
    rewrite Hget. cbn [rbind]. unfold real, attrs.
    rewrite plain_compile by assumption. cbn [rbind]. reflexivity.
  - rewrite field_map_of_new. unfold dict_keys. rewrite List.map_map. simpl.
    apply List.map_id.
  - rewrite compiled_fields_of_new. reflexivity.
  - rewrite compiled_fields_of_new.
    rewrite data_first_access by reflexivity.
    rewrite to_value_single by reflexivity. cbn [instance many].
    assert (E : map (fun k => cf_item k req) ks
                = map (fun kv => cf_item (fst kv) req) kvs).
    { rewrite <- Hkvs. now rewrite List.map_map. }
    rewrite E, _serialize_eq, serialize_loop_items; [reflexivity| |exact Hd].
    simpl. unfold dict_keys. rewrite Hkvs. exact Hks.
Qed.

(** ** Worked instances, continued *)

(** The class declares [name]; the implicit list names [id] and [name]. *)
Lemma explicit_fields_survive_expansion_witness :
  (forall k f,
     dict_get [("name", plain_Field false)] k = Some f ->
     dict_get [("name", plain_Field false); ("id", plain_Field true)] k
     = Some f)
  /\ exists added,
       [("name", plain_Field false); ("id", plain_Field true)]
       = [("name", plain_Field false)] ++ added
       /\ Forall (fun kv => snd kv = plain_Field true
                            /\ dict_get [("name", plain_Field false)] (fst kv)
                               = None) added.
Proof.
  exact (explicit_fields_survive_expansion (plain_Field true)
           [("name", plain_Field false)]
           (FieldsList [ItemField (mkModelField "id");
                        ItemField (mkModelField "name")])
           [("name", plain_Field false); ("id", plain_Field true)]
           eq_refl).
Defined.

Lemma implicit_names_get_default_witness :
  dict_get [("name", plain_Field false); ("id", plain_Field true)] "id"
  = Some (plain_Field true)
  /\ dict_get [("name", plain_Field false); ("id", plain_Field true)] "name"
     = Some (plain_Field false).
Proof.
  destruct (implicit_names_get_default (plain_Field true)
              [("name", plain_Field false)]
              (FieldsList [ItemField (mkModelField "id");
                           ItemField (mkModelField "name")])
              [ItemField (mkModelField "id"); ItemField (mkModelField "name")]
              [("name", plain_Field false); ("id", plain_Field true)]
              eq_refl eq_refl) as [H _].
  split.
  - exact (H (ItemField (mkModelField "id")) "id"
             (or_introl eq_refl) eq_refl).
  - exact (H (ItemField (mkModelField "name")) "name"
             (or_intror (or_introl eq_refl)) eq_refl).
Defined.

(** [name] is declared, [age] is excluded: [id] is the one implicit field. *)
Lemma exclusion_selects_canonical_minus_excluded_witness :
  declared_fields (plain_Field true) "UserSerializer"
    (__mro__ Serializer_cls)
    (ex_model_attrs (mkMeta (Some ex_model) FieldsNone (Some ["age"])))
  = inr [("name", plain_Field false); ("id", plain_Field true)].
Proof.
  refine (exclusion_selects_canonical_minus_excluded (plain_Field true)
            "UserSerializer" (__mro__ Serializer_cls)
            (ex_model_attrs (mkMeta (Some ex_model) FieldsNone (Some ["age"])))
            (mkMeta (Some ex_model) FieldsNone (Some ["age"]))
            ex_model
            [mkModelField "id"; mkModelField "name"; mkModelField "age"]
            eq_refl eq_refl eq_refl _ eq_refl eq_refl).
  distinct_keys.
Defined.

Lemma all_selects_every_canonical_field_witness :
  declared_fields (plain_Field true) "UserSerializer"
    (__mro__ Serializer_cls)
    (ex_model_attrs (mkMeta (Some ex_model) (FieldsStr "__all__") None))
  = inr [("name", plain_Field false); ("id", plain_Field true);
         ("age", plain_Field true)].
Proof.
  refine (all_selects_every_canonical_field (plain_Field true)
            "UserSerializer" (__mro__ Serializer_cls)
            (ex_model_attrs
               (mkMeta (Some ex_model) (FieldsStr "__all__") None))
            (mkMeta (Some ex_model) (FieldsStr "__all__") None)
            ex_model
            [mkModelField "id"; mkModelField "name"; mkModelField "age"]
            eq_refl eq_refl eq_refl _ eq_refl eq_refl).
  distinct_keys.
Defined.

(** [name] and [age] are descriptors, [helper] is not. *)
Lemma descriptors_leave_the_namespace_witness :
  dict_get (cls_dict ex_Mixed_cls) "name" = None
  /\ dict_get (cls_dict ex_Mixed_cls) "helper" = Some (AValue (VInt 1))
  /\ dict_keys (_field_map ex_Mixed_cls) = ["name"; "age"].
Proof.
  assert (Hnd : NoDup (dict_keys ex_mixed_attrs)) by distinct_keys.
  pose proof (descriptors_leave_the_namespace (plain_Field true) "Mixed"
                (__mro__ Serializer_cls) ex_mixed_attrs ex_Mixed_cls
                eq_refl Hnd) as H.
  split; [|split; [|reflexivity]].
  - apply (H "name"); discriminate.
  - apply (H "helper"); discriminate.
Defined.

Lemma field_map_keys_distinct_witness :
  NoDup (dict_keys (_field_map ex_Child_cls))
  /\ length (_compiled_fields ex_Child_cls)
     = length (dict_keys (_field_map ex_Child_cls)).
Proof.
  exact (field_map_keys_distinct (plain_Field true) "Child"
           (__mro__ ex_Base_cls) ex_Child_attrs ex_Child_cls eq_refl).
Defined.

Lemma compiled_plan_follows_field_map_witness :
  map cf_name (_compiled_fields ex_Child_cls) = ["a"; "b"; "c"]
  /\ length (_compiled_fields ex_Child_cls)
     = length (_field_map ex_Child_cls).
Proof.
  pose proof (compiled_plan_follows_field_map (_field_map ex_Child_cls)
                (type_new "Child" (__mro__ ex_Base_cls) ex_Child_attrs)
                (_compiled_fields ex_Child_cls) eq_refl) as H.
  split; [reflexivity|]. symmetry. exact (Forall2_length _ _ _ H).
Defined.

Lemma output_keys_are_plan_names_witness :
  exists d,
    VDict 0 [("name", VStr "ann"); ("age", VInt 0)] = VDict (next_addr w_init) d
    /\ NoDup (dict_keys d)
    /\ (forall k, In k (dict_keys d) ->
          exists f, In f ex_User_plan /\ cf_name f = k)
    /\ length d <= length ex_User_plan.
Proof.
  exact (output_keys_are_plan_names ex_self ex_user ex_User_plan w_init
           (mkWorld [] 1)
           (VDict 0 [("name", VStr "ann"); ("age", VInt 0)]) eq_refl).
Defined.

(** Both fields are optional; the [TypeError] of the extractor and the
    [KeyError] of the transform leave [_serialize] all the same. *)
Lemma only_lookup_errors_of_the_extractor_are_caught_witness :
  _serialize ex_self ex_user [cf_plain "age" true; cf_bad_extractor] w_init
  = (mkWorld [] 1, inl (TypeError "bad"))
  /\ _serialize ex_self ex_user [cf_plain "age" true; cf_bad_transform]
       w_init
     = (mkWorld [] 1, inl (KeyError "inner")).
Proof.
  split.
  - exact (proj1 (only_lookup_errors_of_the_extractor_are_caught
                    ex_self ex_user [cf_plain "age" true] cf_bad_extractor []
                    w_init (mkWorld [] 1) [("age", VInt 0)]
                    eq_refl eq_refl)
                 (mkWorld [] 1) (TypeError "bad") eq_refl eq_refl).
  - exact (proj2 (only_lookup_errors_of_the_extractor_are_caught
                    ex_self ex_user [cf_plain "age" true] cf_bad_transform []
                    w_init (mkWorld [] 1) [("age", VInt 0)]
                    eq_refl eq_refl)
                 (mkWorld [] 1) (VStr "ann") (mkWorld [] 1) (KeyError "inner")
                 eq_refl eq_refl eq_refl).
Defined.

(** The second element has no [name]: the batch raises after two mappings
    were allocated (addresses 1 and 2), and the third element is not read. *)
Lemma batch_stops_at_first_failure_witness :
  to_value [cf_plain "name" true] ex_self_broken (instance ex_self_broken)
    w_init
  = (mkWorld [] 3, inl (AttributeError "name")).
Proof.
  refine (batch_stops_at_first_failure [cf_plain "name" true] ex_self_broken
            (instance ex_self_broken) w_init [ex_user] (VObject []) [ex_bob]
            [VDict 1 [("name", VStr "ann")]] (mkWorld [] 2) (mkWorld [] 3)
            (AttributeError "name") eq_refl eq_refl _ eq_refl).
  apply (each_cons _ _ _ _ _ (mkWorld [] 2)); [reflexivity|]. apply each_nil.
Defined.

Lemma batch_result_is_one_mapping_per_element_witness :
  exists os ds,
    py_iter (instance ex_self_many) w_init = (w_init, inr os)
    /\ VList 0 [VDict 1 [("name", VStr "ann")];
                VDict 2 [("name", VStr "bob")];
                VDict 3 [("name", VStr "cy")]]
       = VList (next_addr w_init) ds
    /\ serialize_each ex_self_many [cf_plain "name" true] os
         (after_alloc w_init) ds (mkWorld [] 4)
    /\ length ds = length os
    /\ Forall (fun d => exists a items, d = VDict a items) ds.
Proof.
  exact (batch_result_is_one_mapping_per_element [cf_plain "name" true]
           ex_self_many (instance ex_self_many) w_init (mkWorld [] 4)
           _ eq_refl eq_refl).
Defined.

(** A serializer over something else, with something cached, gives the same
    output for [ex_user]. *)
Lemma plan_without_pass_self_ignores_the_serializer_witness :
  to_value ex_User_plan ex_self ex_user w_init
  = to_value ex_User_plan (mkSerializer VNone false (VStr "cached")) ex_user
      w_init.
Proof.
  apply plan_without_pass_self_ignores_the_serializer.
  - repeat constructor.
  - reflexivity.
Defined.

(** The plan asks for [age] then [name]; the output has them in that
    order. *)
Lemma key_lookup_plan_projects_the_source_witness :
  _serialize ex_self ex_dict [cf_item "age" true; cf_item "name" true] w_init
  = (mkWorld [] 1, inr (VDict 0 [("age", VInt 0); ("name", VStr "ann")])).
Proof.
  refine (key_lookup_plan_projects_the_source ex_self 50
            [("name", VStr "ann"); ("age", VInt 0)] true
            [("age", VInt 0); ("name", VStr "ann")] w_init _ _).
  - distinct_keys.
  - intros k x [E|[E|[]]]; injection E as <- <-; reflexivity.
Defined.

Lemma default_extractor_follows_the_base_witness :
  (exists cf,
     _compile_field_to_tuple (plain_Field true) "name"
       (type_new "A" (__mro__ Serializer_cls) ex_User_attrs) = inr cf
     /\ cf_getter cf = Getter1 (attrgetter "name")
     /\ cf_name cf = "name")
  /\ (exists cf,
        _compile_field_to_tuple (plain_Field true) "name"
          (type_new "A" (__mro__ DictSerializer_cls) ex_User_attrs) = inr cf
        /\ cf_getter cf = Getter1 (itemgetter "name")
        /\ cf_name cf = "name").
Proof.
  exact (default_extractor_follows_the_base "A" ex_User_attrs
           (plain_Field true) "name" eq_refl (fun _ => eq_refl)).
Defined.

Lemma declared_fields_without_Meta_witness :
  declared_fields (plain_Field true) "Mixed" (__mro__ Serializer_cls)
    ex_mixed_attrs
  = inr [("name", plain_Field true); ("age", plain_Field false)].
Proof.
  refine (declared_fields_without_Meta (plain_Field true) "Mixed"
            (__mro__ Serializer_cls) ex_mixed_attrs _ (or_introl eq_refl)).
  distinct_keys.
Defined.

Lemma plain_DictSerializer_schema_end_to_end_witness :
  exists T,
    SerializerMeta_new (plain_Field true) "UserSerializer"
      (__mro__ DictSerializer_cls)
      [("name", AField (plain_Field true)); ("age", AField (plain_Field true))]
    = inr T
    /\ dict_keys (_field_map T) = ["name"; "age"]
    /\ _compiled_fields T = [cf_item "name" true; cf_item "age" true]
    /\ data (_compiled_fields T)
         (mkSerializer ex_dict false VNone) w_init
       = (mkSerializer ex_dict false
            (VDict 0 [("name", VStr "ann"); ("age", VInt 0)]),
          mkWorld [] 1,
          inr (VDict 0 [("name", VStr "ann"); ("age", VInt 0)])).
Proof.
  refine (plain_DictSerializer_schema_end_to_end (plain_Field true)
            "UserSerializer" true ["name"; "age"] 50
            [("name", VStr "ann"); ("age", VInt 0)]
            [("name", VStr "ann"); ("age", VInt 0)] w_init _ eq_refl _).
  - distinct_keys.
  - intros k x [E|[E|[]]]; injection E as <- <-; reflexivity.
Defined.

(** * Two fields under one output name, and inherited [Meta] declarations *)

(** C1, as stated, fails.  The class body is
    [name = Field(label='nick'); nick = Field(required=False)] and the source
    has a [name] and no [nick].  The field [nick] is optional, is read with
    the one-argument default extractor, and that extractor raises
    [AttributeError] on the source; yet its output name [nick] is a key of
    the result, written by the other field. *)
Lemma missing_optional_name_present_through_label :
  (exists T,
     SerializerMeta_new (plain_Field true) "S" (__mro__ Serializer_cls)
       ex_relabel_first_attrs = inr T
     /\ _compiled_fields T = [cf_name_as_nick; cf_plain "nick" false])
  /\ cf_required (cf_plain "nick" false) = false
  /\ cf_pass_self (cf_plain "nick" false) = false
  /\ call_getter1 (cf_getter (cf_plain "nick" false)) ex_user (mkWorld [] 1)
     = (mkWorld [] 1, inl (AttributeError "nick"))
  /\ _serialize ex_self ex_user [cf_name_as_nick; cf_plain "nick" false]
       w_init
     = (mkWorld [] 1, inr (VDict 0 [("nick", VStr "ann")]))
  /\ dict_get [("nick", VStr "ann")] (cf_name (cf_plain "nick" false))
     <> None.
Proof.
  split; [eexists; split; reflexivity|].
  repeat split; try reflexivity. discriminate.
Qed.

(** C3, as stated, fails.  The class body is
    [n = Field(); b = Field(label='n')] and the source has [n = 0] and
    [b = False].  The field [n] is required and its extraction returns the
    present value [0]; yet the result does not bind [n] to [0]: the field
    after it is stored under the same name. *)
Lemma required_falsy_value_overwritten_through_label :
  (exists T,
     SerializerMeta_new (plain_Field true) "S" (__mro__ Serializer_cls)
       ex_relabel_falsy_attrs = inr T
     /\ _compiled_fields T = [cf_plain "n" true; cf_b_as_n])
  /\ cf_required (cf_plain "n" true) = true
  /\ extract ex_self ex_falsy (cf_plain "n" true) (mkWorld [] 1)
     = (mkWorld [] 1, inr (VInt 0))
  /\ invoked_transformed (cf_plain "n" true) (VInt 0) (mkWorld [] 1)
     = (mkWorld [] 1, inr (VInt 0))
  /\ _serialize ex_self ex_falsy [cf_plain "n" true; cf_b_as_n] w_init
     = (mkWorld [] 1, inr (VDict 0 [("n", VBool false)]))
  /\ dict_get [("n", VBool false)] (cf_name (cf_plain "n" true))
     <> Some (VInt 0).
Proof.
  split; [eexists; split; reflexivity|].
  repeat split; try reflexivity. discriminate.
Qed.

(** C10, as stated, fails.  The class body is
    [nick = Field(required=False); name = Field(label='nick')] and the
    source has [nick = None] and a [name].  The field [nick] is optional and
    its extraction returns [None]; yet the result does not bind [nick] to
    [None]: the field after it is stored under the same name. *)
Lemma optional_None_overwritten_through_label :
  (exists T,
     SerializerMeta_new (plain_Field true) "S" (__mro__ Serializer_cls)
       ex_relabel_last_attrs = inr T
     /\ _compiled_fields T = [cf_plain "nick" false; cf_name_as_nick])
  /\ cf_required (cf_plain "nick" false) = false
  /\ call_getter1 (cf_getter (cf_plain "nick" false)) ex_cy (mkWorld [] 1)
     = (mkWorld [] 1, inr VNone)
  /\ _serialize ex_self ex_cy [cf_plain "nick" false; cf_name_as_nick] w_init
     = (mkWorld [] 1, inr (VDict 0 [("nick", VStr "cy")]))
  /\ dict_get [("nick", VStr "cy")] (cf_name (cf_plain "nick" false))
     <> Some VNone.
Proof.
  split; [eexists; split; reflexivity|].
  repeat split; try reflexivity. discriminate.
Qed.







(** * The order of the field map *)

Lemma dict_mem_existsb {V} (d : dict V) k :
  dict_mem d k = existsb (String.eqb k) (dict_keys d).
Proof.
  unfold dict_mem. induction d as [|[k' v] d IH]; simpl; [reflexivity|].
  rewrite (String.eqb_sym k k').
  destruct (String.eqb k' k); [reflexivity|exact IH].
Qed.

Lemma ancestor_maps_rev mro :
  ancestor_maps (rev mro) = rev (ancestor_maps mro).
Proof.
  unfold ancestor_maps, schema_ancestors.
  now rewrite List.filter_rev, List.map_rev.
Qed.

(** The walk of [_get_fields] appends, class after class, the names of the
    class's field map that the mapping does not have yet. *)
Lemma merge_bases_keys classes acc fm :
  merge_bases classes acc = inr fm ->
  (forall c, In c classes -> issubclass_SerializerBase c = true ->
             NoDup (dict_keys (_field_map c))) ->
  dict_keys fm
  = fold_left
      (fun ks m =>
         ks ++ List.filter (fun k => negb (existsb (String.eqb k) ks))
                           (dict_keys m))
      (ancestor_maps classes) (dict_keys acc).
Proof.
  revert acc. induction classes as [|c rest IH]; intros acc H Hnd;
    simpl in H.
  - injection H as <-. reflexivity.
  - rewrite ancestor_maps_cons.
    destruct (issubclass_SerializerBase c) eqn:Hc.
    + apply rbind_inv in H as (m & Hm & H).
      apply get_field_map_total in Hm. subst m.
      rewrite (IH _ H) by (intros c' Hc'; apply Hnd; now right).
      cbn [fold_left]. f_equal.
      rewrite dict_keys_update by (apply Hnd; [now left|assumption]).
      f_equal. apply List.filter_ext. intros k.
      now rewrite dict_mem_existsb.
    + apply IH; [assumption|]. intros c' Hc'. apply Hnd. now right.
Qed.

(** X7.  Lines 29-37 and 134: the order of the keys of the field map of a
    class [T] the metaclass returns.  Take the field maps of the schema
    classes of the MRO of [T] from the farthest ancestor to the nearest (the
    walk over [__mro__[::-1]]; the class under construction stands at the
    near end with the field map it inherits), and after them the direct
    fields of [T].  The keys of the field map of [T] are the names of these
    mappings in the order in which they are first met: every mapping adds,
    behind the names met so far, those of its names that were not met yet,
    in its own order.  So a name keeps the place it got from the farthest
    ancestor that has it, also when a nearer class or [T] itself declares it
    again, and the names [T] adds come last, in the order of their
    declaration.  The field maps of the schema classes are dictionaries (no
    name twice). *)
Theorem inherited_names_keep_their_place nf cname tail attrs T :
  SerializerMeta_new nf cname tail attrs = inr T ->
  (forall c, In c (__mro__ (type_new cname tail attrs)) ->
             issubclass_SerializerBase c = true ->
             NoDup (dict_keys (_field_map c))) ->
  exists direct,
    declared_fields nf cname tail attrs = inr direct
    /\ dict_keys (_field_map T)
       = first_met
           (rev (ancestor_maps (__mro__ (type_new cname tail attrs)))
            ++ [direct]).
Proof.
  intros H Hnd. apply SerializerMeta_new_inv in H as (direct & Hd & Hf & _).
  exists direct. split; [assumption|].
  unfold _get_fields in Hf. apply rbind_inv in Hf as (base & Hb & Hf).
  injection Hf as Hf. rewrite <- Hf.
  rewrite dict_keys_update by (eapply declared_fields_NoDup; eauto).
  apply merge_bases_keys in Hb.
  2:{ intros c Hc. apply Hnd. now apply List.in_rev. }
  rewrite ancestor_maps_rev in Hb.
  unfold first_met. rewrite fold_left_app. cbn [fold_left].
  change (dict_keys (@nil (string * Field))) with (@nil string) in Hb.
  rewrite <- Hb. f_equal. apply List.filter_ext. intros k.
  now rewrite dict_mem_existsb.
Qed.

(** [Child(Base)]: [Base] has [a] and [b], [Child] declares [b] again and
    then [c].  [b] stays second, where [Base] put it, and [c] comes last. *)
Lemma inherited_names_keep_their_place_witness :
  dict_keys (_field_map ex_Child_cls) = ["a"; "b"; "c"]
  /\ dict_keys (collect_direct_fields ex_Child_attrs) = ["b"; "c"].
Proof.
  assert (Hnd : forall c,
            In c (__mro__ (type_new "Child" (__mro__ ex_Base_cls)
                             ex_Child_attrs)) ->
            issubclass_SerializerBase c = true ->
            NoDup (dict_keys (_field_map c))).
  { intros c Hc _.
    repeat (destruct Hc as [<-|Hc]; [distinct_keys|]). destruct Hc. }
  destruct (inherited_names_keep_their_place (plain_Field true) "Child"
              (__mro__ ex_Base_cls) ex_Child_attrs ex_Child_cls eq_refl Hnd)
    as (direct & Hd & Hk).
  injection Hd as <-. split; [exact Hk|reflexivity].
Defined.
